(** * psst.model: build_model and PSSTModel.solve

    A shallow embedding of [src/psst/model/__init__.py].

    Conventions of the embedding.
    - Python numbers that the code only moves around or does exact
      arithmetic on are rationals ([Q], compared with [==]); integers
      ([NCOST], [MODEL], period labels, commitment values) are [Z].
    - [None] is [None] of an [option]; a NaN cell of a data frame is also
      [None] (this is what [pd.isnull] and [dropna] test).
    - A dict whose iteration order the code relies on is an association
      list updated in place ([od_set]); the other dicts are [gmap]s.
    - A raised exception is [Raise e]; statements run in source order
      through the bind of [result].
    - The functions imported from the sibling modules ([.model],
      [.generators], [.reserves], [.constraints], [..solver]) mutate the
      Pyomo model; their bodies are outside this file.  What [build_model]
      hands to them is recorded field by field in [Assembly]; the solver
      and the result table are parameters of the section on [solve].
    - The frames are given: the [None] defaults of the signature and a
      frame without one of the columns read are outside the records.
      The statements of [build_model] that only pass columns on to the
      sibling modules (lines 106-121, 131-195) are not part of
      [assemble_from]; the dicts they loop for are embedded on their
      own ([generator_at_bus], [cell_dict]).  A build that returns has
      passed every stage embedded here. *)

From Stdlib Require Import ZArith QArith Lqa Lia Sorted.
From stdpp Require Import base option list gmap strings pretty sorting.

Local Open Scope string_scope.
Local Open Scope Z_scope.

(** ** Python values, exceptions *)

(** The values a configuration entry can hold. *)
Inductive pyval :=
  | PyNone
  | PyBool (b : bool)
  | PyInt (z : Z)
  | PyStr (s : string).

#[global] Instance pyval_eq_dec : EqDecision pyval.
Proof. solve_decision. Defined.

(** An argument of [str.format]. *)
Inductive fmtarg :=
  | FVal (v : pyval)
  | FInt (z : Z)
  | FNums (l : list Q).

(** [template.format(k1=a1, ...)]; a positional argument has the empty
    key. *)
Record message := Format { template : string; fargs : list (string * fmtarg) }.

Inductive exn :=
  | NotImplementedError (m : message)
  | AssertionError (m : message)
  | KeyError (k : string)
  | ValueError (why : string)
  | TypeError (why : string)
  | SolverError (why : string).

Inductive result (A : Type) :=
  | Ok (a : A)
  | Raise (e : exn).
Arguments Ok {A} a.
Arguments Raise {A} e.

#[global] Instance result_ret : MRet result := fun A a => Ok a.
#[global] Instance result_bind : MBind result := fun A B k r =>
  match r with
  | Ok a => k a
  | Raise e => Raise e
  end.

#[global] Instance result_fmap : FMap result := fun A B f r =>
  match r with
  | Ok a => Ok (f a)
  | Raise e => Raise e
  end.

(** [x == "literal"] for a configuration value. *)
Definition py_eq_str (v : pyval) (s : string) : bool :=
  match v with
  | PyStr s' => bool_decide (s' = s)
  | _ => false
  end.

(** ** Configuration (lines 63-73) *)

(** [config.pop(key, default)]: the value and the dict without the key. *)
Definition dict_pop (key : string) (dflt : pyval) (d : gmap string pyval)
  : pyval * gmap string pyval :=
  (default dflt (d !! key), delete key d).

Record Options := {
  use_ptdf : pyval;
  segments : pyval;
  has_global_reserves : pyval;
  resolve : pyval;
  market_type : pyval;
}.

Definition read_config (config : gmap string pyval) : Options * gmap string pyval :=
  let '(use_ptdf, config) := dict_pop "use_ptdf" (PyBool false) config in
  let '(segments, config) := dict_pop "segments" (PyInt 2) config in
  let '(has_global_reserves, config) := dict_pop "has_global_reserves" (PyBool true) config in
  let '(resolve, config) := dict_pop "resolve" (PyBool false) config in
  let '(market_type, config) := dict_pop "market_type" (PyStr "day_ahead") config in
  ({| use_ptdf := use_ptdf; segments := segments;
      has_global_reserves := has_global_reserves;
      resolve := resolve; market_type := market_type |}, config).

(** The keys [build_model] recognises. *)
Definition recognized_keys : list string :=
  ["use_ptdf"; "segments"; "has_global_reserves"; "resolve"; "market_type"].

(** [if config is None: config = dict()].  The caller's dict, when there is
    one, is the object that is popped from; a fresh dict is local. *)
Definition configure (config : option (gmap string pyval))
  : Options * option (gmap string pyval) :=
  match config with
  | None => (fst (read_config ∅), None)
  | Some d => let '(o, d') := read_config d in (o, Some d')
  end.

(** ** Reserve factors (lines 75-82) *)

Record Factors := {
  reserve_factor : option Q;
  regulating_reserve_factor : option Q;
  flexible_ramp_factor : option Q;
}.

Definition default_factors (f : Factors) : Factors :=
  let reserve_factor :=
    match reserve_factor f with None => Some 0%Q | x => x end in
  let reserve_factor :=
    match regulating_reserve_factor f with None => Some 0%Q | _ => reserve_factor end in
  let flexible_ramp_factor :=
    match flexible_ramp_factor f with None => Some 0%Q | x => x end in
  {| reserve_factor := reserve_factor;
     regulating_reserve_factor := regulating_reserve_factor f;
     flexible_ramp_factor := flexible_ramp_factor |}.

(** ** Prior commitment and initial state (lines 197-222) *)

(** A labelled column: the index label of each row with its cell;
    [None] is NaN. *)
Definition Series := list (Z * option Z).

(** A frame of integer cells: the row labels and the named columns.
    Column names are distinct, as in a frame built from a dict. *)
Record DataFrame := {
  df_index : list Z;
  df_columns : list (string * list Z);
}.

Definition column (index : list Z) (cells : list Z) : Series :=
  zip index (Some <$> cells).

Definition cell_sub (a b : option Z) : option Z :=
  match a, b with
  | Some x, Some y => Some (x - y)
  | _, _ => None
  end.

(** [Series.diff()]: each cell minus the one before; the first is NaN. *)
Fixpoint diff_from (prev : option Z) (s : Series) : Series :=
  match s with
  | [] => []
  | (i, v) :: s' => (i, cell_sub v prev) :: diff_from v s'
  end.

Definition diff (s : Series) : Series := diff_from None s.

Definition dropna (s : Series) : Series :=
  filter (fun r => is_Some (snd r)) s.

(** [s[s != 0]] *)
Definition nonzero (s : Series) : Series :=
  filter (fun r => snd r ≠ Some 0) s.

(** The body of the loop over [diff.columns], for one column.
    [T] is [len(load_df)].  [check_row] has one row, or none when the frame
    has no row, where [int(check_row.index.values)] raises. *)
Definition initial_state_of (T : Z) (index : list Z) (cells : list Z) : result Z :=
  let col := column index cells in
  let s := dropna (diff col) in
  let diff_s := nonzero s in
  let check_row :=
    match diff_s with
    | [] => head col
    | _ => last diff_s
    end in
  match check_row with
  | None => Raise (TypeError "only size-1 arrays can be converted to Python scalars")
  | Some (idx, v) =>
      if bool_decide (v = Some (-1)) || bool_decide (v = Some 0)
      then Ok (-1 * (T - idx))
      else Ok (T - idx)
  end.

Fixpoint initial_states (T : Z) (index : list Z) (cols : list (string * list Z))
    (initial_state_dict : gmap string Z) : result (gmap string Z) :=
  match cols with
  | [] => Ok initial_state_dict
  | (col, cells) :: cols' =>
      st ← initial_state_of T index cells;
      initial_states T index cols' (<[col := st]> initial_state_dict)
  end.

(** Insertion-ordered dict: assignment to a present key keeps its place. *)
Fixpoint od_set {A} (k : string) (a : A) (d : list (string * A)) : list (string * A) :=
  match d with
  | [] => [(k, a)]
  | (k', a') :: d' =>
      if bool_decide (k' = k) then (k, a) :: d' else (k', a') :: od_set k a d'
  end.

Fixpoint od_get {A} (k : string) (d : list (string * A)) : option A :=
  match d with
  | [] => None
  | (k', a') :: d' => if bool_decide (k' = k) then Some a' else od_get k d'
  end.

(** The all-zero history built when no prior commitment is given: one
    column of [len(load_df)] zeros per generator name, on the row labels
    of the load frame.  Without generators the frame has the load rows and
    no column. *)
Definition default_previous (names : list string) (load_index : list Z) : DataFrame :=
  let previous_unit_commitment :=
    foldl (fun d g => od_set g (replicate (length load_index) 0) d) [] names in
  {| df_index := load_index; df_columns := previous_unit_commitment |}.

Definition derive_initial_state (names : list string) (load_index : list Z)
    (previous_unit_commitment_df : option DataFrame) : result (gmap string Z) :=
  let previous_unit_commitment_df :=
    match previous_unit_commitment_df with
    | None => default_previous names load_index
    | Some df => df
    end in
  initial_states (Z.of_nat (length load_index))
    (df_index previous_unit_commitment_df)
    (df_columns previous_unit_commitment_df) ∅.

(** ** Production cost curves (lines 226-279) *)

(** A row of [generator_df], with the columns read by the code embedded
    here.  [COST] holds the cells of [COST_0], [COST_1], ... in order; a
    column past its end does not exist in the frame. *)
Record Generator := {
  gen_name : string;
  PMIN : Q;
  PMAX : Q;
  MODEL : Z;
  NCOST : Z;
  COST : list Q;
  STARTUP : Q;
  SHUTDOWN : Q;
}.

(** [g['COST_{}'.format(k)]] *)
Definition cost_cell (g : Generator) (k : nat) : result Q :=
  match COST g !! k with
  | Some c => Ok c
  | None => Raise (KeyError ("COST_" +:+ pretty (N.of_nat k)))
  end.

(** [numpy.linspace(start, stop, num)] with its default [endpoint=True]:
    [arange(0, num) * step + start], the last sample set to [stop]. *)
Definition linspace (start stop : Q) (num : nat) : list Q :=
  match num with
  | O => []
  | S O => [(0 * (stop - start) + start)%Q]
  | S (S _ as div) =>
      let step := ((stop - start) / inject_Z (Z.of_nat div))%Q in
      ((fun i => (inject_Z (Z.of_nat i) * step + start)%Q) <$> seq 0 div) ++ [stop]
  end.

(** The [num] argument taken from the configuration. *)
Definition as_num (v : pyval) : result nat :=
  match v with
  | PyInt z =>
      if z <? 0 then Raise (ValueError "Number of samples must be non-negative")
      else Ok (Z.to_nat z)
  | PyBool b => Ok (if b then 1%nat else 0%nat)
  | _ => Raise (TypeError "object cannot be interpreted as an integer")
  end.

Definition Curve : Type := list Q * list Q.

(** [MODEL == 2] *)
Definition polynomial_curve (segments : pyval) (g : Generator) : result Curve :=
  if NCOST g =? 2 then
    let small_increment := if Qeq_bool (PMIN g) (PMAX g) then 1%Q else 0%Q in
    let points := linspace (PMIN g) (PMAX g + small_increment) 2 in
    c0 ← cost_cell g 0;
    c1 ← cost_cell g 1;
    Ok (points, (fun p => c0 + c1 * p)%Q <$> points)
  else if NCOST g =? 3 then
    num ← as_num segments;
    let points := linspace (PMIN g) (PMAX g) num in
    c0 ← cost_cell g 0;
    c1 ← cost_cell g 1;
    c2 ← cost_cell g 2;
    Ok (points, (fun p => c0 + c1 * p + c2 * p ^ 2)%Q <$> points)
  else
    Raise (NotImplementedError
      (Format "Unable to build cost function for ncost={ncost}"
              [("ncost", FInt (NCOST g))])).

(** One turn of [for n in range(0, g['NCOST'])]: the value is read first. *)
Definition declared_pair (g : Generator) (n : nat) : result (Q * Q) :=
  v ← cost_cell g (2 * n + 1);
  p ← cost_cell g (2 * n);
  Ok (p, v).

(** [MODEL == 1] *)
Definition piecewise_curve (g : Generator) : result Curve :=
  if NCOST g =? 1 then
    Raise (AssertionError
      (Format "Unable to form cost curve with a single point for generator {} because NCOST = {}"
              [("", FVal (PyStr (gen_name g))); ("", FInt (NCOST g))]))
  else if NCOST g <? 0 then
    Raise (ValueError "negative dimensions are not allowed")
  else
    pv ← mapM (declared_pair g) (seq 0 (Z.to_nat (NCOST g)));
    Ok (fst <$> pv, snd <$> pv).

(** [MODEL == 0] *)
Definition fixed_curve (g : Generator) : Curve :=
  ([0%Q; PMAX g], [0%Q; (1 # 100)%Q]).

(** The body of [for i, g in generator_df.iterrows()]; a generator with
    another [MODEL] gets no entry. *)
Definition cost_curve (segments : pyval) (g : Generator) : result (option Curve) :=
  if MODEL g =? 2 then Some <$> polynomial_curve segments g
  else if MODEL g =? 1 then Some <$> piecewise_curve g
  else if MODEL g =? 0 then Ok (Some (fixed_curve g))
  else Ok None.

Definition Curves : Type := list (string * list Q) * list (string * list Q).

Fixpoint cost_curves (segments : pyval) (gens : list Generator) (acc : Curves)
  : result Curves :=
  match gens with
  | [] => Ok acc
  | g :: gens' =>
      c ← cost_curve segments g;
      cost_curves segments gens'
        match c with
        | Some (p, v) => (od_set (gen_name g) p (fst acc), od_set (gen_name g) v (snd acc))
        | None => acc
        end
  end.

(** The two validation loops (lines 274-279).  [float(i)] is the identity
    on the numbers of the arrays built above. *)
Fixpoint validate (what : string) (tmpl : string) (d : list (string * list Q))
  : result unit :=
  match d with
  | [] => Ok tt
  | (k, v) :: d' =>
      if bool_decide (2 ≤ length v)%nat then validate what tmpl d'
      else Raise (AssertionError
             (Format tmpl [(what, FNums v); ("genco", FVal (PyStr k))]))
  end.

Definition points_template :=
  "Points must be of length 2 but instead found {points} for {genco}".
Definition values_template :=
  "Values must be of length 2 but instead found {values} for {genco}".

Definition validated_curves (segments : pyval) (gens : list Generator) : result Curves :=
  c ← cost_curves segments gens ([], []);
  _ ← validate "points" points_template (fst c);
  _ ← validate "values" values_template (snd c);
  Ok c.

(** ** Start-up costs and market type (lines 288-292, 328-335) *)

(** [generator_df[col].to_dict()]: of two rows with one label the later
    wins. *)
Definition to_dict {A} (col : Generator -> A) (gens : list Generator) : gmap string A :=
  foldl (fun d g => <[gen_name g := col g]> d) ∅ gens.

(** The one flexible-ramp formulation of [.constraints]. *)
Inductive FlexibleRamping := constraint_for_Flexible_Ramping.

Definition select_flexible_ramping (market_type : pyval) : result FlexibleRamping :=
  if py_eq_str market_type "day_ahead" then Ok constraint_for_Flexible_Ramping
  else if py_eq_str market_type "hourly_ahead" then Ok constraint_for_Flexible_Ramping
  else if py_eq_str market_type "real_time" then Ok constraint_for_Flexible_Ramping
  else Raise (NotImplementedError
         (Format "Unknown market type {}" [("", FVal market_type)])).

(** ** Network and generator maps (lines 123-128, 166-169) *)

(** A row of [branch_df]: its label and the two bus columns. *)
Record Branch := { br_name : string; F_BUS : string; T_BUS : string }.

(** [{b: list() for b in keys}] *)
Definition empty_lists (keys : list string) : gmap string (list string) :=
  foldl (fun d b => <[b := []]> d) ∅ keys.

(** [d[k].append(i)] *)
Definition dict_append (k i : string) (d : gmap string (list string))
  : result (gmap string (list string)) :=
  match d !! k with
  | Some l => Ok (<[k := (l ++ [i])%list]> d)
  | None => Raise (KeyError k)
  end.

(** [for i, l in branch_df.iterrows()] *)
Fixpoint incidence (branches : list Branch)
    (lines_from lines_to : gmap string (list string))
  : result (gmap string (list string) * gmap string (list string)) :=
  match branches with
  | [] => Ok (lines_from, lines_to)
  | l :: branches' =>
      lines_from ← dict_append (F_BUS l) (br_name l) lines_from;
      lines_to ← dict_append (T_BUS l) (br_name l) lines_to;
      incidence branches' lines_from lines_to
  end.

(** [lines_from] and [lines_to] as handed to [derive_network]. *)
Definition derive_lines (bus_index : list string) (branch_df : list Branch)
  : result (gmap string (list string) * gmap string (list string)) :=
  incidence branch_df (empty_lists bus_index) (empty_lists bus_index).

(** [for i, g in generator_df.iterrows()], on the [GEN_BUS] column given
    as labelled cells. *)
Fixpoint at_bus (gen_bus : list (string * string)) (d : gmap string (list string))
  : result (gmap string (list string)) :=
  match gen_bus with
  | [] => Ok d
  | (i, b) :: gen_bus' => d ← dict_append b i d; at_bus gen_bus' d
  end.

Definition generator_at_bus (gen_bus : list (string * string))
  : result (gmap string (list string)) :=
  at_bus gen_bus (empty_lists (snd <$> gen_bus)).

(** ** build_model *)

Record Case := { baseMVA : Q }.

(** The arguments of [build_model] read by the code embedded here. *)
Record BuildArgs := {
  case : Case;
  generator_df : list Generator;
  load_index : list Z;
  branch_df : list Branch;
  bus_index : list string;
  previous_unit_commitment_df : option DataFrame;
  base_MVA : option Q;
  factors : Factors;
  config : option (gmap string pyval);
}.

(** What [build_model] passes to the assemblers of the sibling modules,
    one field per keyword argument. *)
Record Assembly := {
  reactance_base : Q;
  lines_from : gmap string (list string);
  lines_to : gmap string (list string);
  initial_state : gmap string Z;
  points : list (string * list Q);
  values : list (string * list Q);
  hot_start_costs : gmap string Q;
  cold_start_costs : gmap string Q;
  shutdown_cost_coefficient : gmap string Q;
  global_reserve_factor : option Q;
  regulating_reserves_factor : option Q;
  flexible_ramp : option Q;
  up_down_time_resolve : pyval;
  flexible_ramping : FlexibleRamping;
}.

(** The statements of [build_model] after the configuration is read. *)
Definition assemble_from (o : Options) (a : BuildArgs) : result Assembly :=
  let base_MVA := default (baseMVA (case a)) (base_MVA a) in
  let f := default_factors (factors a) in
  lines ← derive_lines (bus_index a) (branch_df a);
  initial_state_dict ←
    derive_initial_state (gen_name <$> generator_df a) (load_index a)
      (previous_unit_commitment_df a);
  c ← validated_curves (segments o) (generator_df a);
  let hot_start_costs := to_dict STARTUP (generator_df a) in
  let cold_start_costs := to_dict STARTUP (generator_df a) in
  let shutdown_costs := to_dict SHUTDOWN (generator_df a) in
  fr ← select_flexible_ramping (market_type o);
  Ok {| reactance_base := base_MVA;
        lines_from := fst lines;
        lines_to := snd lines;
        initial_state := initial_state_dict;
        points := fst c;
        values := snd c;
        hot_start_costs := hot_start_costs;
        cold_start_costs := cold_start_costs;
        shutdown_cost_coefficient := shutdown_costs;
        global_reserve_factor := reserve_factor f;
        regulating_reserves_factor := regulating_reserve_factor f;
        flexible_ramp := flexible_ramp_factor f;
        up_down_time_resolve := resolve o;
        flexible_ramping := fr |}.

(** The caller's [config] object after the call, and the assembly or the
    exception. *)
Definition build_assembly (a : BuildArgs)
  : option (gmap string pyval) * result Assembly :=
  let '(o, config_after) := configure (config a) in
  (config_after, assemble_from o a).

(** ** The Pyomo model as [solve] sees it *)

Record VarData := { value : option Q; fixed : bool }.

Record Model := {
  parameters : Assembly;
  UnitOn : gmap (string * Z) VarData;
  EnforceUpTimeConstraintsInitial : bool;
  EnforceUpTimeConstraintsSubsequent : bool;
  EnforceDownTimeConstraintsInitial : bool;
  EnforceDownTimeConstraintsSubsequent : bool;
}.

Inductive Results := PSSTResults.

Record PSSTModel := {
  _case : Case;
  _model : Model;
  _is_solved : bool;
  _status : option string;
  _results : option Results;
}.

(** [PSSTModel(model, case=case)] *)
Definition PSSTModel_init (model : Model) (case : Case) : PSSTModel :=
  {| _case := case; _model := model; _is_solved := false;
     _status := None; _results := None |}.

(** The keyword arguments of one call of [solve_model]; [is_mip] is [None]
    where the call does not pass it. *)
Record SolveArgs := {
  solver : string;
  verbose : bool;
  keepfiles : bool;
  is_mip : option bool;
  kwargs : gmap string pyval;
}.

(** [int(float(v))]: truncation toward zero. *)
Definition int_of_float (v : Q) : Z := Z.quot (Qnum v) (Z.pos (Qden v)).

Definition set_UnitOn (u : gmap (string * Z) VarData) (m : Model) : Model :=
  {| parameters := parameters m; UnitOn := u;
     EnforceUpTimeConstraintsInitial := EnforceUpTimeConstraintsInitial m;
     EnforceUpTimeConstraintsSubsequent := EnforceUpTimeConstraintsSubsequent m;
     EnforceDownTimeConstraintsInitial := EnforceDownTimeConstraintsInitial m;
     EnforceDownTimeConstraintsSubsequent := EnforceDownTimeConstraintsSubsequent m |}.

(** The body of [for g, v in row.iteritems()] at period [t]. *)
Definition fix_cell (t : Z) (m : Model) (gv : string * option Q) : result Model :=
  match snd gv with
  | None => Ok m
  | Some v =>
      match UnitOn m !! (fst gv, t) with
      | None => Raise (KeyError "UnitOn")
      | Some _ =>
          Ok (set_UnitOn
                (<[(fst gv, t) :=
                     {| value := Some (inject_Z (int_of_float v)); fixed := true |}]>
                   (UnitOn m)) m)
      end
  end.

Fixpoint fix_row (t : Z) (row : list (string * option Q)) (m : Model) : result Model :=
  match row with
  | [] => Ok m
  | gv :: row' => m' ← fix_cell t m gv; fix_row t row' m'
  end.

(** [for t, row in self.results.unit_commitment.iterrows()] *)
Fixpoint fix_commitment (table : list (Z * list (string * option Q))) (m : Model)
  : result Model :=
  match table with
  | [] => Ok m
  | (t, row) :: table' => m' ← fix_row t row m; fix_commitment table' m'
  end.

(** The four [deactivate()] calls. *)
Definition deactivate_up_down_time (m : Model) : Model :=
  {| parameters := parameters m; UnitOn := UnitOn m;
     EnforceUpTimeConstraintsInitial := false;
     EnforceUpTimeConstraintsSubsequent := false;
     EnforceDownTimeConstraintsInitial := false;
     EnforceDownTimeConstraintsSubsequent := false |}.

Section Solve.

(** [solve_model] of [..solver]: the model after the solver has loaded
    its solution into it, or the solver's failure. *)
Variable solve_model : Model -> SolveArgs -> result Model.

(** [PSSTResults(self).unit_commitment] as [iterrows] and [iteritems]
    walk it: for each period label the cell of each generator. *)
Variable unit_commitment : Model -> list (Z * list (string * option Q)).

(** The assemblers of the sibling modules, which turn what
    [build_model] passes to them into the Pyomo model. *)
Variable assemble : Assembly -> Model.

Definition build_model (a : BuildArgs) : option (gmap string pyval) * result PSSTModel :=
  let '(config_after, r) := build_assembly a in
  (config_after, model ← r; Ok (PSSTModel_init (assemble model) (case a))).

Definition with_model (self : PSSTModel) (m : Model) : PSSTModel :=
  {| _case := _case self; _model := m; _is_solved := _is_solved self;
     _status := _status self; _results := Some PSSTResults |}.

Definition solved (self : PSSTModel) : PSSTModel :=
  {| _case := _case self; _model := _model self; _is_solved := _is_solved self;
     _status := Some "solved"; _results := _results self |}.

(** [PSSTModel.solve]: the calls of [solve_model] made, each with the
    model it was handed, and the object afterwards or the exception. *)
Definition solve (self : PSSTModel) (solver : string) (verbose keepfiles resolve : bool)
    (kwargs : gmap string pyval)
  : list (Model * SolveArgs) * result PSSTModel :=
  let first := {| solver := solver; verbose := verbose; keepfiles := keepfiles;
                  is_mip := None; kwargs := kwargs |} in
  match solve_model (_model self) first with
  | Raise e => ([(_model self, first)], Raise e)
  | Ok m1 =>
      let self1 := with_model self m1 in
      let resolve := if bool_decide (solver = "xpress") then true else resolve in
      if resolve then
        match fix_commitment (unit_commitment m1) m1 with
        | Raise e => ([(_model self, first)], Raise e)
        | Ok m2 =>
            let m2 := deactivate_up_down_time m2 in
            match kwargs !! "is_mip" with
            | Some _ =>
                ([(_model self, first)],
                 Raise (TypeError "got multiple values for keyword argument 'is_mip'"))
            | None =>
                let second := {| solver := solver; verbose := verbose;
                                 keepfiles := keepfiles; is_mip := Some false;
                                 kwargs := kwargs |} in
                match solve_model m2 second with
                | Raise e => ([(_model self, first); (m2, second)], Raise e)
                | Ok m3 =>
                    ([(_model self, first); (m2, second)],
                     Ok (solved (with_model self m3)))
                end
            end
        end
      else ([(_model self, first)], Ok (solved self1))
  end.

End Solve.

(** ** Predicates of the statements *)

(** The value of a recognised option: the caller's entry, or the default
    of the [pop]. *)
Definition configured (key : string) (dflt : pyval) (a : BuildArgs) : pyval :=
  default dflt (d ← config a; d !! key).

Definition market_types : list pyval :=
  [PyStr "day_ahead"; PyStr "hourly_ahead"; PyStr "real_time"].

(** Power values in non-decreasing order. *)
Definition nondecreasing (l : list Q) : Prop := StronglySorted Qle l.

(** The declared powers [COST_0], [COST_2], ... of a piecewise curve. *)
Definition declared_powers (g : Generator) : list Q :=
  (fun n => default 0%Q (COST g !! (2 * n)%nat)) <$> seq 0 (Z.to_nat (NCOST g)).

(** Inputs on which a curve is expected: the cost columns that are read
    exist, limits are ordered, declared powers are ordered, and a
    quadratic is sampled at two points or more. *)
Definition well_formed (segments : pyval) (g : Generator) : Prop :=
  (MODEL g = 2 ∧ NCOST g = 2 ∧ (2 ≤ length (COST g))%nat ∧ (PMIN g <= PMAX g)%Q)
  ∨ (MODEL g = 2 ∧ NCOST g = 3 ∧ (3 ≤ length (COST g))%nat ∧ (PMIN g <= PMAX g)%Q
     ∧ ∃ n, segments = PyInt n ∧ 2 ≤ n)
  ∨ (MODEL g = 1 ∧ 2 ≤ NCOST g ∧ 2 * NCOST g ≤ Z.of_nat (length (COST g))
     ∧ nondecreasing (declared_powers g))
  ∨ (MODEL g = 0 ∧ (0 <= PMAX g)%Q).

(** An assertion failure whose message is formatted with [genco=k]. *)
Definition names_generator (e : exn) (k : string) : Prop :=
  ∃ tmpl what v,
    e = AssertionError (Format tmpl [(what, FNums v); ("genco", FVal (PyStr k))]).

Definition short_curve (d : list (string * list Q)) : Prop :=
  Exists (fun kv => (length (snd kv) < 2)%nat) d.

(** Two dicts with the same keys in the same order and related values. *)
Definition aligned {A B} (R : A -> B -> Prop)
    (d1 : list (string * A)) (d2 : list (string * B)) : Prop :=
  Forall2 (fun x y => fst x = fst y ∧ R (snd x) (snd y)) d1 d2.

(** Modelled from the spec: the hot-start versus cold-start selection of
    the start-up cost constraints (section 4.6), whose code is in
    [.generators] and [.constraints]: the coefficient that applies is the
    hot one or the cold one, by a rule on the offline duration. *)
Definition startup_cost_coefficient (is_hot : Z -> bool) (asm : Assembly)
    (g : string) (offline : Z) : option Q :=
  if is_hot offline then hot_start_costs asm !! g else cold_start_costs asm !! g.

(** The cells of the commitment table in the order the two loops of
    [solve] visit them, keyed like [UnitOn]. *)
Definition cells (table : list (Z * list (string * option Q)))
  : list ((string * Z) * option Q) :=
  t_row ← table; (fun gv => ((fst gv, fst t_row), snd gv)) <$> snd t_row.


(** The model handed to the continuous re-solve, when there is one. *)
Definition resubmitted (log : list (Model * SolveArgs)) : option Model :=
  match log with
  | [_; (m2, second)] =>
      match is_mip second with Some false => Some m2 | _ => None end
  | _ => None
  end.

Definition up_down_time_inactive (m : Model) : Prop :=
  EnforceUpTimeConstraintsInitial m = false
  ∧ EnforceUpTimeConstraintsSubsequent m = false
  ∧ EnforceDownTimeConstraintsInitial m = false
  ∧ EnforceDownTimeConstraintsSubsequent m = false.

(** ** Sample inputs *)

Definition unit_g1 : Generator :=
  {| gen_name := "g1"; PMIN := 10; PMAX := 50; MODEL := 2; NCOST := 2;
     COST := [5%Q; 2%Q]; STARTUP := 100; SHUTDOWN := 20 |}.

Definition unit_g2 : Generator :=
  {| gen_name := "g2"; PMIN := 30; PMAX := 30; MODEL := 2; NCOST := 2;
     COST := [1%Q; 3%Q]; STARTUP := 7; SHUTDOWN := 0 |}.

Definition sample_previous : DataFrame :=
  {| df_index := [0; 1; 2; 3];
     df_columns := [("g1", [1; 1; 0; 0]); ("g2", [1; 1; 1; 1])] |}.

Definition sample_args (cfg : option (gmap string pyval)) : BuildArgs :=
  {| case := {| baseMVA := 100 |};
     generator_df := [unit_g1; unit_g2];
     load_index := [0; 1; 2; 3];
     branch_df := [{| br_name := "l1"; F_BUS := "b1"; T_BUS := "b2" |}];
     bus_index := ["b1"; "b2"];
     previous_unit_commitment_df := Some sample_previous;
     base_MVA := None;
     factors := {| reserve_factor := Some (1 # 10)%Q;
                   regulating_reserve_factor := None;
                   flexible_ramp_factor := None |};
     config := cfg |}.

Definition resolve_config : gmap string pyval :=
  {[ "resolve" := PyBool true; "segments" := PyInt 3; "seed" := PyInt 7 ]}.

Definition weekly_config : gmap string pyval :=
  {[ "market_type" := PyStr "weekly" ]}.

(** The two loops of [solve] over the cells in visiting order. *)
Fixpoint fix_cells (cs : list ((string * Z) * option Q)) (m : Model) : result Model :=
  match cs with
  | [] => Ok m
  | (k, v) :: cs' => m' ← fix_cell (snd k) m (fst k, v); fix_cells cs' m'
  end.

(** [model.solve()] with the defaults of its signature. *)
Definition solve_with_defaults
    (solve_model : Model -> SolveArgs -> result Model)
    (unit_commitment : Model -> list (Z * list (string * option Q)))
    (self : PSSTModel) : list (Model * SolveArgs) * result PSSTModel :=
  solve solve_model unit_commitment self "glpk" false false false ∅.

(** The second, continuous solve was made. *)
Definition resolve_phase_ran (log : list (Model * SolveArgs)) : bool :=
  match resubmitted log with Some _ => true | None => false end.

(** The variable is fixed at [x]. *)
Definition fixed_at (x : Z) : VarData :=
  {| value := Some (inject_Z x); fixed := true |}.



(** A model with the commitment variables of the two sample units at
    period 0, nothing fixed and the four groups active. *)
Definition bare_model (asm : Assembly) : Model :=
  {| parameters := asm;
     UnitOn := {[ ("g1", 0) := {| value := None; fixed := false |};
                  ("g2", 0) := {| value := None; fixed := false |} ]};
     EnforceUpTimeConstraintsInitial := true;
     EnforceUpTimeConstraintsSubsequent := true;
     EnforceDownTimeConstraintsInitial := true;
     EnforceDownTimeConstraintsSubsequent := true |}.

Definition empty_assembly : Assembly :=
  {| reactance_base := 100; lines_from := ∅; lines_to := ∅;
     initial_state := ∅; points := []; values := [];
     hot_start_costs := ∅; cold_start_costs := ∅; shutdown_cost_coefficient := ∅;
     global_reserve_factor := Some 0%Q; regulating_reserves_factor := None;
     flexible_ramp := Some 0%Q; up_down_time_resolve := PyBool false;
     flexible_ramping := constraint_for_Flexible_Ramping |}.

Definition sample_self : PSSTModel :=
  PSSTModel_init (bare_model empty_assembly) {| baseMVA := 100 |}.

(** A solver that succeeds and leaves the model as it is. *)
Definition echo_solver (m : Model) (_ : SolveArgs) : result Model := Ok m.

(** A result table with a null cell and a cell within tolerance of 1. *)
Definition loose_commitment (_ : Model) : list (Z * list (string * option Q)) :=
  [(0, [("g1", None); ("g2", Some (999999 # 1000000)%Q)])].

(** A result table of exact 0/1 cells. *)
Definition exact_commitment (_ : Model) : list (Z * list (string * option Q)) :=
  [(0, [("g1", Some 1%Q); ("g2", Some 0%Q)])].

(** ** Further inputs of the statements *)

(** Row labels [o, o+1, ..., o+T-1]; pandas' default index is
    [range_from 0 T]. *)
Definition range_from (o : Z) (T : nat) : list Z :=
  (fun i => o + Z.of_nat i) <$> seq 0 T.

(** The same call with another [config] argument. *)
Definition with_config (a : BuildArgs) (cfg : option (gmap string pyval)) : BuildArgs :=
  {| case := case a; generator_df := generator_df a; load_index := load_index a;
     branch_df := branch_df a; bus_index := bus_index a;
     previous_unit_commitment_df := previous_unit_commitment_df a;
     base_MVA := base_MVA a; factors := factors a; config := cfg |}.

(** ** Time series dicts (lines 146-150, 158-162, 295-299) *)

(** A frame of numbers as [iterrows] walks it: the column names, and for
    each row its label and its cells in column order. *)
Record RowFrame := { rf_columns : list string; rf_rows : list (Z * list Q) }.

(** [for i, t in df.iterrows(): for col in columns: d[(col, i)] = t[col]] *)
Definition cell_dict (f : RowFrame) : gmap (string * Z) Q :=
  foldl (fun d row =>
           foldl (fun d cv => <[(fst cv, fst row) := snd cv]> d) d
                 (zip (rf_columns f) (snd row)))
        ∅ (rf_rows f).

(** ** PSSTModel.__repr__ and PSSTModel.results (lines 360-370, 397-399) *)

(** [str] of the status: [None] prints as its name. *)
Definition format_status (status : option string) : string :=
  "status=" +:+ default "None" status.

Definition repr (self : PSSTModel) : string :=
  "<" +:+ "psst.model" +:+ "." +:+ "PSSTModel" +:+ "("
      +:+ format_status (_status self) +:+ ")>".

Definition results (self : PSSTModel) : option Results := _results self.

(** The flexible-ramp pass a market type leads to, run on the model;
    [pass] stands for [constraint_for_Flexible_Ramping] of
    [.constraints]. *)
Definition apply_market_type (pass : Model -> Model) (market_type : pyval)
    (model : Model) : result Model :=
  fr ← select_flexible_ramping market_type;
  match fr with
  | constraint_for_Flexible_Ramping => Ok (pass model)
  end.

(** The market type makes a difference to the constraints built. *)
Definition formulation_by_market_type (pass : Model -> Model) (model : Model) : Prop :=
  ∃ mt1 mt2, mt1 ∈ market_types ∧ mt2 ∈ market_types
    ∧ apply_market_type pass mt1 model ≠ apply_market_type pass mt2 model.

(** A pass that leaves the model as it is. *)
Definition echo_pass (m : Model) : Model := m.


(** * Properties *)

(** ** Configuration *)

Lemma read_config_dict (d : gmap string pyval) :
  snd (read_config d) = foldl (fun m k => delete k m) d recognized_keys.
Proof. reflexivity. Qed.

Lemma read_config_options (d : gmap string pyval) :
  fst (read_config d) =
    {| use_ptdf := default (PyBool false) (d !! "use_ptdf");
       segments := default (PyInt 2) (d !! "segments");
       has_global_reserves := default (PyBool true) (d !! "has_global_reserves");
       resolve := default (PyBool false) (d !! "resolve");
       market_type := default (PyStr "day_ahead") (d !! "market_type") |}.
Proof.
  unfold read_config, dict_pop; cbn [fst].
  repeat (rewrite lookup_delete_ne by discriminate). reflexivity.
Qed.

Lemma configure_options (a : BuildArgs) :
  fst (configure (config a)) =
    {| use_ptdf := configured "use_ptdf" (PyBool false) a;
       segments := configured "segments" (PyInt 2) a;
       has_global_reserves := configured "has_global_reserves" (PyBool true) a;
       resolve := configured "resolve" (PyBool false) a;
       market_type := configured "market_type" (PyStr "day_ahead") a |}.
Proof.
  unfold configure, configured. destruct (config a) as [d|]; cbn [mbind option_bind].
  - pose proof (read_config_options d) as H.
    destruct (read_config d) as [o d']. exact H.
  - rewrite read_config_options. rewrite !lookup_empty. reflexivity.
Qed.

Lemma build_assembly_unfold (a : BuildArgs) :
  build_assembly a =
    (snd (configure (config a)), assemble_from (fst (configure (config a))) a).
Proof. unfold build_assembly. destruct (configure (config a)); reflexivity. Qed.

Lemma build_model_config assemble (a : BuildArgs) :
  fst (build_model assemble a) = snd (configure (config a)).
Proof.
  unfold build_model. rewrite build_assembly_unfold. reflexivity.
Qed.

Lemma build_model_result assemble (a : BuildArgs) :
  snd (build_model assemble a) =
    (fun asm => PSSTModel_init (assemble asm) (case a)) <$> snd (build_assembly a).
Proof.
  unfold build_model. destruct (build_assembly a) as [c [asm|e]]; reflexivity.
Qed.

(** C10. [build_model] pops the recognised options out of the dict the
    caller passed: afterwards that dict holds none of [use_ptdf],
    [segments], [has_global_reserves], [resolve], [market_type], and its
    other entries are as they were; this holds whether the build then
    succeeds or raises. *)
Theorem build_model_pops_config assemble (a : BuildArgs) (d : gmap string pyval) :
  config a = Some d →
  ∃ d', fst (build_model assemble a) = Some d'
    ∧ (∀ k, k ∈ recognized_keys → d' !! k = None)
    ∧ (∀ k, k ∉ recognized_keys → d' !! k = d !! k).
Proof.
  intros Hd. rewrite build_model_config, Hd. unfold configure.
  pose proof (read_config_dict d) as Hdict.
  destruct (read_config d) as [o d']. cbn [snd] in *. subst d'.
  eexists; split; [reflexivity|]. unfold recognized_keys; cbn [foldl].
  split; intros k Hk.
  - repeat (apply elem_of_cons in Hk as [->|Hk]);
      [..|by apply elem_of_nil in Hk];
      repeat first [ apply lookup_delete_eq | rewrite lookup_delete_ne by discriminate ].
  - repeat (apply not_elem_of_cons in Hk as [? Hk]).
    by rewrite !lookup_delete_ne.
Qed.

Lemma build_model_pops_config_witness :
  ∃ d', fst (build_model bare_model (sample_args (Some resolve_config))) = Some d'
    ∧ (∀ k, k ∈ recognized_keys → d' !! k = None)
    ∧ (∀ k, k ∉ recognized_keys → d' !! k = resolve_config !! k).
Proof. apply (build_model_pops_config _ (sample_args (Some resolve_config))). reflexivity. Defined.

(** ** Inversion of a successful build *)

Lemma bind_Ok {A B} (r : result A) (k : A -> result B) (b : B) :
  r ≫= k = Ok b → ∃ a, r = Ok a ∧ k a = Ok b.
Proof. destruct r as [a|e]; [eauto | discriminate]. Qed.

Lemma fmap_Ok {A B} (f : A -> B) (r : result A) (b : B) :
  f <$> r = Ok b → ∃ a, r = Ok a ∧ b = f a.
Proof. destruct r as [a|e]; [intros [= <-]; eauto | discriminate]. Qed.

Lemma assemble_from_Ok (o : Options) (a : BuildArgs) (asm : Assembly) :
  assemble_from o a = Ok asm →
  ∃ ln i c fr,
    derive_lines (bus_index a) (branch_df a) = Ok ln
    ∧ derive_initial_state (gen_name <$> generator_df a) (load_index a)
        (previous_unit_commitment_df a) = Ok i
    ∧ validated_curves (segments o) (generator_df a) = Ok c
    ∧ select_flexible_ramping (market_type o) = Ok fr
    ∧ asm = {| reactance_base := default (baseMVA (case a)) (base_MVA a);
               lines_from := fst ln; lines_to := snd ln;
               initial_state := i; points := fst c; values := snd c;
               hot_start_costs := to_dict STARTUP (generator_df a);
               cold_start_costs := to_dict STARTUP (generator_df a);
               shutdown_cost_coefficient := to_dict SHUTDOWN (generator_df a);
               global_reserve_factor := reserve_factor (default_factors (factors a));
               regulating_reserves_factor :=
                 regulating_reserve_factor (default_factors (factors a));
               flexible_ramp := flexible_ramp_factor (default_factors (factors a));
               up_down_time_resolve := resolve o;
               flexible_ramping := fr |}.
Proof.
  unfold assemble_from. intros H.
  apply bind_Ok in H as (ln & Hln & H).
  apply bind_Ok in H as (i & Hi & H).
  apply bind_Ok in H as (c & Hc & H).
  apply bind_Ok in H as (fr & Hfr & H).
  injection H as <-. by exists ln, i, c, fr.
Qed.

Lemma build_assembly_Ok (a : BuildArgs) (asm : Assembly) :
  snd (build_assembly a) = Ok asm →
  assemble_from (fst (configure (config a))) a = Ok asm.
Proof. by rewrite build_assembly_unfold. Qed.

(** ** Reserve factors *)

(** C1. In a build, an unset [regulating_reserve_factor] makes the
    reserve factor handed on 0, whatever the caller gave for it, and is
    itself handed on as [None]; an unset [reserve_factor] gives 0 and an
    unset [flexible_ramp_factor] gives 0, each whatever the other two
    are; a flexible-ramp factor that is set is kept, and so is a reserve
    factor that is set when the regulating one is set too. *)
Theorem reserve_factor_defaulting (a : BuildArgs) (asm : Assembly) :
  snd (build_assembly a) = Ok asm →
  (regulating_reserve_factor (factors a) = None →
     global_reserve_factor asm = Some 0%Q ∧ regulating_reserves_factor asm = None)
  ∧ (reserve_factor (factors a) = None → global_reserve_factor asm = Some 0%Q)
  ∧ (flexible_ramp_factor (factors a) = None → flexible_ramp asm = Some 0%Q)
  ∧ (∀ x, flexible_ramp_factor (factors a) = Some x → flexible_ramp asm = Some x)
  ∧ (∀ r x, regulating_reserve_factor (factors a) = Some r →
            reserve_factor (factors a) = Some x →
            global_reserve_factor asm = Some x
            ∧ regulating_reserves_factor asm = Some r).
Proof.
  intros H. apply build_assembly_Ok, assemble_from_Ok in H as (ln & i & c & fr & _ & _ & _ & _ & ->).
  cbn [global_reserve_factor regulating_reserves_factor flexible_ramp].
  unfold default_factors.
  destruct (factors a) as [rf rrf frf]; cbn.
  repeat split; intros; simplify_eq; try reflexivity.
  - by destruct rrf.
Qed.


Lemma reserve_factor_defaulting_witness :
  match snd (build_assembly (sample_args None)) with
  | Ok asm =>
      global_reserve_factor asm = Some 0%Q
      ∧ regulating_reserves_factor asm = None
      ∧ flexible_ramp asm = Some 0%Q
  | Raise _ => False
  end.
Proof.
  destruct (snd (build_assembly (sample_args None))) as [asm|e] eqn:E.
  - destruct (reserve_factor_defaulting (sample_args None) asm E)
      as (H1 & _ & H3 & _).
    destruct H1 as [H1 H2]; [reflexivity|].
    split; [exact H1|]. split; [exact H2|]. apply H3. reflexivity.
  - vm_compute in E. discriminate E.
Defined.

(** ** Market type *)

Lemma select_recognized (mt : pyval) :
  mt ∈ market_types → select_flexible_ramping mt = Ok constraint_for_Flexible_Ramping.
Proof.
  unfold market_types. intros H.
  repeat (apply elem_of_cons in H as [->|H]); [reflexivity..|].
  by apply elem_of_nil in H.
Qed.

Lemma py_eq_str_true (v : pyval) (s : string) : py_eq_str v s = true → v = PyStr s.
Proof.
  destruct v; try discriminate. cbn. intros H%bool_decide_eq_true. by subst.
Qed.

Lemma select_unknown (mt : pyval) :
  mt ∉ market_types →
  select_flexible_ramping mt =
    Raise (NotImplementedError (Format "Unknown market type {}" [("", FVal mt)])).
Proof.
  unfold market_types, select_flexible_ramping. intros H.
  repeat (apply not_elem_of_cons in H as [? H]).
  repeat (destruct (py_eq_str mt _) eqn:E;
          [apply py_eq_str_true in E; congruence | clear E]).
  reflexivity.
Qed.

Lemma apply_recognized (pass : Model -> Model) (mt : pyval) (model : Model) :
  mt ∈ market_types → apply_market_type pass mt model = Ok (pass model).
Proof. intros H. unfold apply_market_type. by rewrite (select_recognized mt H). Qed.

Lemma build_assembly_market_type (a : BuildArgs) (asm : Assembly) :
  snd (build_assembly a) = Ok asm →
  configured "market_type" (PyStr "day_ahead") a ∈ market_types.
Proof.
  intros H. apply build_assembly_Ok in H. rewrite configure_options in H.
  apply assemble_from_Ok in H as (ln & i & c & fr & _ & _ & _ & Hfr & _).
  cbn [market_type] in Hfr.
  destruct (decide (configured "market_type" (PyStr "day_ahead") a ∈ market_types))
    as [Hin|Hout]; [exact Hin|].
  by rewrite (select_unknown _ Hout) in Hfr.
Qed.

(** C8 (as amended). The market-type selector accepts [day_ahead],
    [hourly_ahead] and [real_time] and runs the one flexible-ramp pass,
    [constraint_for_Flexible_Ramping(model)], the same for the three;
    for any other value it raises a [NotImplementedError] whose message
    is formatted with that value.  So a build that returns had a
    recognised market type, and a build with another value raises. *)
Theorem market_type_selection (pass : Model -> Model) (model : Model) (a : BuildArgs) :
  (∀ mt, mt ∈ market_types → apply_market_type pass mt model = Ok (pass model))
  ∧ (∀ mt, mt ∉ market_types →
       apply_market_type pass mt model
       = Raise (NotImplementedError (Format "Unknown market type {}" [("", FVal mt)])))
  ∧ (∀ asm, snd (build_assembly a) = Ok asm →
       configured "market_type" (PyStr "day_ahead") a ∈ market_types)
  ∧ (configured "market_type" (PyStr "day_ahead") a ∉ market_types →
       ∃ e, snd (build_assembly a) = Raise e).
Proof.
  split; [|split; [|split]].
  - intros mt. apply apply_recognized.
  - intros mt Hmt. unfold apply_market_type. by rewrite (select_unknown mt Hmt).
  - apply build_assembly_market_type.
  - intros Hout. destruct (snd (build_assembly a)) as [asm|e] eqn:E; [|by exists e].
    destruct Hout. by apply (build_assembly_market_type a asm).
Qed.

Lemma market_type_selection_witness :
  apply_market_type echo_pass (PyStr "hourly_ahead") (bare_model empty_assembly)
  = Ok (echo_pass (bare_model empty_assembly))
  ∧ ∃ e, snd (build_assembly (sample_args (Some weekly_config))) = Raise e.
Proof.
  destruct (market_type_selection echo_pass (bare_model empty_assembly)
              (sample_args (Some weekly_config))) as (H1 & _ & _ & H4).
  split.
  - apply H1. apply list_elem_of_In. cbn. tauto.
  - apply H4. vm_compute. intros H. apply list_elem_of_In in H. cbn in H.
    destruct H as [[=]|[[=]|[[=]|[]]]].
Defined.

(** C8 (as stated) fails: the formulation does not follow the market
    type; the three recognised values give the same constraints. *)
Lemma market_type_makes_no_difference :
  ¬ formulation_by_market_type echo_pass (bare_model empty_assembly).
Proof.
  intros (mt1 & mt2 & H1 & H2 & Hne). apply Hne.
  by rewrite (apply_recognized _ mt1 _ H1), (apply_recognized _ mt2 _ H2).
Qed.

(** ** Start-up costs *)

Lemma to_dict_fresh {A} (col : Generator -> A) (gens : list Generator)
    (acc : gmap string A) (k : string) :
  k ∉ gen_name <$> gens →
  foldl (fun d g => <[gen_name g := col g]> d) acc gens !! k = acc !! k.
Proof.
  revert acc. induction gens as [|g gens IH]; intros acc Hk; [reflexivity|].
  cbn in *. apply not_elem_of_cons in Hk as [Hne Hk].
  rewrite IH by exact Hk. by rewrite lookup_insert_ne.
Qed.

Lemma to_dict_lookup {A} (col : Generator -> A) (gens : list Generator) (g : Generator) :
  NoDup (gen_name <$> gens) → g ∈ gens →
  to_dict col gens !! gen_name g = Some (col g).
Proof.
  unfold to_dict. generalize (∅ : gmap string A).
  induction gens as [|g' gens IH]; intros acc Hnd Hg.
  - by apply elem_of_nil in Hg.
  - cbn in *. apply NoDup_cons in Hnd as [Hfresh Hnd].
    apply elem_of_cons in Hg as [->|Hg].
    + rewrite to_dict_fresh by exact Hfresh. apply lookup_insert_eq.
    + by apply IH.
Qed.

(** C9. In a build the hot-start and the cold-start coefficients handed
    to the start-up cost construction are the same dict, the [STARTUP]
    column: a generator (with a label of its own) has its [STARTUP] cell
    as both, and a selection between the two by offline duration gives the
    same coefficient at every duration. *)
Theorem hot_cold_start_costs_equal (a : BuildArgs) (asm : Assembly) :
  snd (build_assembly a) = Ok asm →
  hot_start_costs asm = cold_start_costs asm
  ∧ (∀ g, NoDup (gen_name <$> generator_df a) → g ∈ generator_df a →
       hot_start_costs asm !! gen_name g = Some (STARTUP g)
       ∧ cold_start_costs asm !! gen_name g = Some (STARTUP g))
  ∧ (∀ is_hot g d1 d2,
       startup_cost_coefficient is_hot asm g d1
       = startup_cost_coefficient is_hot asm g d2).
Proof.
  intros H. apply build_assembly_Ok, assemble_from_Ok in H as (ln & i & c & fr & _ & _ & _ & _ & ->).
  unfold startup_cost_coefficient. cbn [hot_start_costs cold_start_costs].
  split; [reflexivity|]. split.
  - intros g Hnd Hg. split; by apply to_dict_lookup.
  - intros is_hot g d1 d2. by destruct (is_hot d1), (is_hot d2).
Qed.

Lemma hot_cold_start_costs_equal_witness :
  match snd (build_assembly (sample_args None)) with
  | Ok asm =>
      hot_start_costs asm = cold_start_costs asm
      ∧ startup_cost_coefficient (fun d => d <=? 3) asm "g1" 1
        = startup_cost_coefficient (fun d => d <=? 3) asm "g1" 8
  | Raise _ => False
  end.
Proof.
  destruct (snd (build_assembly (sample_args None))) as [asm|e] eqn:E.
  - destruct (hot_cold_start_costs_equal (sample_args None) asm E) as (H1 & _ & H3).
    split; [exact H1 | apply H3].
  - vm_compute in E. discriminate E.
Defined.

(** ** Initial state *)

Lemma initial_state_of_total (T : Z) (index cells : list Z) :
  index ≠ [] → cells ≠ [] → ∃ st, initial_state_of T index cells = Ok st.
Proof.
  intros Hi Hc. unfold initial_state_of.
  destruct index as [|i index]; [done|]. destruct cells as [|x cells]; [done|].
  set (col := column (i :: index) (x :: cells)).
  destruct (nonzero (dropna (diff col))) as [|r l] eqn:E.
  - cbn. destruct (_ || _); eauto.
  - destruct (last (r :: l)) as [[idx v]|] eqn:El.
    + destruct (_ || _); eauto.
    + by apply last_None in El.
Qed.

Lemma initial_states_fresh (T : Z) (index : list Z) (cols : list (string * list Z))
    (acc d : gmap string Z) (g : string) :
  g ∉ cols.*1 → initial_states T index cols acc = Ok d → d !! g = acc !! g.
Proof.
  revert acc. induction cols as [|[col cells] cols IH]; intros acc Hg H; cbn in *.
  - by injection H as <-.
  - apply not_elem_of_cons in Hg as [Hne Hg].
    apply bind_Ok in H as (st & _ & H).
    rewrite (IH _ Hg H). by rewrite lookup_insert_ne.
Qed.

Lemma initial_states_lookup (T : Z) (index : list Z) (cols : list (string * list Z))
    (acc d : gmap string Z) (g : string) (cells : list Z) :
  NoDup cols.*1 → (g, cells) ∈ cols →
  initial_states T index cols acc = Ok d →
  ∃ st, initial_state_of T index cells = Ok st ∧ d !! g = Some st.
Proof.
  revert acc. induction cols as [|[col cs] cols IH]; intros acc Hnd Hg H; cbn in *.
  - by apply elem_of_nil in Hg.
  - apply NoDup_cons in Hnd as [Hfresh Hnd].
    apply bind_Ok in H as (st & Hst & H).
    apply elem_of_cons in Hg as [[= -> ->]|Hg].
    + exists st. split; [exact Hst|].
      rewrite (initial_states_fresh _ _ _ _ _ _ Hfresh H). apply lookup_insert_eq.
    + by eapply IH.
Qed.

Lemma initial_states_total (T : Z) (index : list Z) (cols : list (string * list Z))
    (acc : gmap string Z) :
  index ≠ [] → Forall (fun c => snd c ≠ []) cols →
  ∃ d, initial_states T index cols acc = Ok d.
Proof.
  intros Hi Hc. revert acc. induction Hc as [|[col cells] cols Hx _ IH]; intros acc; cbn.
  - eauto.
  - destruct (initial_state_of_total T index cells Hi Hx) as [st ->]. apply IH.
Qed.

Lemma derive_initial_state_given (names : list string) (load_index : list Z)
    (df : DataFrame) (g : string) (cells : list Z) :
  df_index df ≠ [] → Forall (fun c => snd c ≠ []) (df_columns df) →
  NoDup (df_columns df).*1 → (g, cells) ∈ df_columns df →
  ∃ d st, derive_initial_state names load_index (Some df) = Ok d
        ∧ initial_state_of (Z.of_nat (length load_index)) (df_index df) cells = Ok st
        ∧ d !! g = Some st.
Proof.
  intros Hi Hc Hnd Hg. unfold derive_initial_state. cbn.
  destruct (initial_states_total (Z.of_nat (length load_index)) (df_index df)
              (df_columns df) ∅ Hi Hc) as [d Hd].
  destruct (initial_states_lookup _ _ _ _ _ _ _ Hnd Hg Hd) as (st & Hst & Hl).
  by exists d, st.
Qed.

(** C4. With four load periods and a prior commitment frame on the row
    labels 0, 1, 2, 3 (no empty column, distinct names), a generator whose
    column is 1, 1, 0, 0 gets the initial state -2: its last transition is
    the -1 at label 2, and -(4 - 2) = -2. *)
Theorem initial_state_after_shutdown (names : list string) (load_index : list Z)
    (df : DataFrame) (g : string) :
  length load_index = 4%nat →
  df_index df = [0; 1; 2; 3] →
  Forall (fun c => snd c ≠ []) (df_columns df) →
  NoDup (df_columns df).*1 →
  (g, [1; 1; 0; 0]) ∈ df_columns df →
  ∃ d, derive_initial_state names load_index (Some df) = Ok d ∧ d !! g = Some (-2).
Proof.
  intros Hlen Hidx Hc Hnd Hg.
  assert (Hne : df_index df ≠ []) by (by rewrite Hidx).
  destruct (derive_initial_state_given names load_index df g _ Hne Hc Hnd Hg)
    as (d & st & Hd & Hst & Hl).
  rewrite Hlen, Hidx in Hst. injection Hst as <-. eauto.
Qed.

(** C5. In the same setting a generator whose column is the constant
    1, 1, 1, 1 has no transition; the first row (label 0, value 1) is
    taken and the initial state is +(4 - 0) = 4. *)
Theorem initial_state_constant_on (names : list string) (load_index : list Z)
    (df : DataFrame) (g : string) :
  length load_index = 4%nat →
  df_index df = [0; 1; 2; 3] →
  Forall (fun c => snd c ≠ []) (df_columns df) →
  NoDup (df_columns df).*1 →
  (g, [1; 1; 1; 1]) ∈ df_columns df →
  ∃ d, derive_initial_state names load_index (Some df) = Ok d ∧ d !! g = Some 4.
Proof.
  intros Hlen Hidx Hc Hnd Hg.
  assert (Hne : df_index df ≠ []) by (by rewrite Hidx).
  destruct (derive_initial_state_given names load_index df g _ Hne Hc Hnd Hg)
    as (d & st & Hd & Hst & Hl).
  rewrite Hlen, Hidx in Hst. injection Hst as <-. eauto.
Qed.

Ltac sample_frame :=
  first
    [ reflexivity
    | by repeat constructor
    | by apply (bool_decide_unpack _)
    | by (apply list_elem_of_In; cbn; tauto) ].

Lemma initial_state_after_shutdown_witness :
  ∃ d, derive_initial_state ["g1"; "g2"] [0; 1; 2; 3] (Some sample_previous) = Ok d
     ∧ d !! "g1" = Some (-2).
Proof.
  apply (initial_state_after_shutdown ["g1"; "g2"] [0; 1; 2; 3] sample_previous "g1");
    sample_frame.
Defined.

Lemma initial_state_constant_on_witness :
  ∃ d, derive_initial_state ["g1"; "g2"] [0; 1; 2; 3] (Some sample_previous) = Ok d
     ∧ d !! "g2" = Some 4.
Proof.
  apply (initial_state_constant_on ["g1"; "g2"] [0; 1; 2; 3] sample_previous "g2");
    sample_frame.
Defined.

(** The label of the transition row enters the result: on the labels
    1, 2, 3, 4 the same two columns give -1 and 3. *)
Example initial_state_labels_from_one :
  initial_state_of 4 [1; 2; 3; 4] [1; 1; 0; 0] = Ok (-1)
  ∧ initial_state_of 4 [1; 2; 3; 4] [1; 1; 1; 1] = Ok 3.
Proof. split; reflexivity. Qed.

(** The default history, all zeros, is off since the first row. *)
Example initial_state_default :
  derive_initial_state ["g1"] [0; 1; 2; 3] None = Ok {[ "g1" := -4 ]}.
Proof. reflexivity. Qed.

(** ** Cost curves *)

Lemma linspace_length (start stop : Q) (num : nat) :
  length (linspace start stop num) = num.
Proof.
  destruct num as [|[|n]]; [reflexivity..|].
  unfold linspace. rewrite length_app, length_fmap, length_seq. cbn. lia.
Qed.

Lemma inject_nat_le (i j : nat) :
  (i ≤ j)%nat → (inject_Z (Z.of_nat i) <= inject_Z (Z.of_nat j))%Q.
Proof. intros H. rewrite <- Zle_Qle. lia. Qed.

Lemma samples_sorted (f : nat -> Q) (a n : nat) :
  (∀ i j, (i ≤ j)%nat → (f i <= f j)%Q) →
  nondecreasing (f <$> seq a n).
Proof.
  intros Hf. revert a. induction n as [|n IH]; intros a; cbn.
  - constructor.
  - constructor; [apply IH|].
    apply Forall_forall. intros y Hy.
    apply list_elem_of_fmap in Hy as (j & -> & Hj).
    apply elem_of_seq in Hj. apply Hf. lia.
Qed.

Lemma linspace_sorted (start stop : Q) (num : nat) :
  (start <= stop)%Q → nondecreasing (linspace start stop num).
Proof.
  intros Hle. destruct num as [|[|n]]; [constructor|repeat constructor|].
  unfold linspace.
  set (d := inject_Z (Z.of_nat (S n))).
  set (step := ((stop - start) / d)%Q).
  assert (Hd : (0 < d)%Q).
  { unfold d. replace 0%Q with (inject_Z 0) by reflexivity. rewrite <- Zlt_Qlt. lia. }
  assert (Hstep : (0 <= step)%Q).
  { unfold step, Qdiv. apply Qmult_le_0_compat; [lra|].
    apply Qinv_le_0_compat. lra. }
  assert (Hlast : (d * step == stop - start)%Q).
  { unfold step. field. lra. }
  apply StronglySorted_app. repeat split.
  - intros x1 x2 H1 H2. apply list_elem_of_singleton in H2 as ->.
    apply list_elem_of_fmap in H1 as (j & -> & Hj). apply elem_of_seq in Hj.
    assert (Hj' : (inject_Z (Z.of_nat j) <= d)%Q) by (apply inject_nat_le; lia).
    assert (inject_Z (Z.of_nat j) * step <= d * step)%Q
      by (apply Qmult_le_compat_r; assumption).
    lra.
  - apply samples_sorted. intros i j Hij.
    assert (inject_Z (Z.of_nat i) * step <= inject_Z (Z.of_nat j) * step)%Q
      by (apply Qmult_le_compat_r; [by apply inject_nat_le | assumption]).
    lra.
  - repeat constructor.
Qed.

Lemma mapM_Ok {A B} (f : A -> result B) (l : list A) (k : list B) :
  mapM f l = Ok k ↔ Forall2 (fun x y => f x = Ok y) l k.
Proof.
  revert k. induction l as [|x l IH]; intros k; cbn.
  - split; [intros [= <-]; constructor | by inversion 1].
  - split.
    + intros H. apply bind_Ok in H as (y & Hy & H).
      apply bind_Ok in H as (k' & Hk' & H). injection H as <-.
      constructor; [exact Hy | by apply IH].
    + inversion 1 as [|? y ? k' Hy Hk']; subst.
      rewrite Hy. cbn. apply IH in Hk'. rewrite Hk'. reflexivity.
Qed.

Lemma cost_cell_Ok (g : Generator) (k : nat) (c : Q) :
  cost_cell g k = Ok c ↔ COST g !! k = Some c.
Proof.
  unfold cost_cell. destruct (COST g !! k); split; intros [= ->]; reflexivity.
Qed.

Lemma declared_pair_Ok (g : Generator) (n : nat) (p v : Q) :
  declared_pair g n = Ok (p, v) ↔
  COST g !! (2 * n)%nat = Some p ∧ COST g !! (2 * n + 1)%nat = Some v.
Proof.
  unfold declared_pair. split.
  - intros H. apply bind_Ok in H as (v' & Hv & H).
    apply bind_Ok in H as (p' & Hp & H). injection H as <- <-.
    by rewrite <- !cost_cell_Ok.
  - intros [Hp Hv]. apply cost_cell_Ok in Hp, Hv. rewrite Hv. cbn [mbind result_bind]. rewrite Hp.
    reflexivity.
Qed.

Lemma cost_curve_linear (segs : pyval) (g : Generator) (c0 c1 : Q) :
  MODEL g = 2 → NCOST g = 2 →
  COST g !! 0%nat = Some c0 → COST g !! 1%nat = Some c1 →
  cost_curve segs g =
    Ok (Some (let points :=
                linspace (PMIN g)
                  (PMAX g + if Qeq_bool (PMIN g) (PMAX g) then 1 else 0)%Q 2 in
              (points, (fun p => c0 + c1 * p)%Q <$> points))).
Proof.
  intros HM HN H0 H1. unfold cost_curve, polynomial_curve.
  rewrite HM, HN. apply cost_cell_Ok in H0, H1. rewrite H0, H1. reflexivity.
Qed.

Lemma cost_curve_quadratic (segs : pyval) (g : Generator) (num : nat) (c0 c1 c2 : Q) :
  MODEL g = 2 → NCOST g = 3 → as_num segs = Ok num →
  COST g !! 0%nat = Some c0 → COST g !! 1%nat = Some c1 → COST g !! 2%nat = Some c2 →
  cost_curve segs g =
    Ok (Some (let points := linspace (PMIN g) (PMAX g) num in
              (points, (fun p => c0 + c1 * p + c2 * p ^ 2)%Q <$> points))).
Proof.
  intros HM HN Hnum H0 H1 H2. unfold cost_curve, polynomial_curve.
  rewrite HM, HN, Hnum. apply cost_cell_Ok in H0, H1, H2. rewrite H0, H1, H2.
  reflexivity.
Qed.

Lemma cost_curve_piecewise (segs : pyval) (g : Generator) :
  MODEL g = 1 → 2 ≤ NCOST g → 2 * NCOST g ≤ Z.of_nat (length (COST g)) →
  ∃ v, length v = Z.to_nat (NCOST g)
     ∧ cost_curve segs g = Ok (Some (declared_powers g, v)).
Proof.
  intros HM HN Hlen. unfold cost_curve, piecewise_curve. rewrite HM.
  change (1 =? 2) with false. change (1 =? 1) with true. cbv iota.
  destruct (NCOST g =? 1) eqn:E1; [lia|].
  destruct (NCOST g <? 0) eqn:E0; [lia|].
  set (pair_of := fun n : nat =>
         (default 0%Q (COST g !! (2 * n)%nat), default 0%Q (COST g !! (2 * n + 1)%nat))).
  assert (Hpv : mapM (declared_pair g) (seq 0 (Z.to_nat (NCOST g)))
                = Ok (pair_of <$> seq 0 (Z.to_nat (NCOST g)))).
  { apply mapM_Ok, Forall2_fmap_r, Forall_Forall2_diag, Forall_forall.
    intros n Hn. apply elem_of_seq in Hn. apply declared_pair_Ok.
    destruct (lookup_lt_is_Some_2 (COST g) (2 * n)%nat) as [p Hp]; [lia|].
    destruct (lookup_lt_is_Some_2 (COST g) (2 * n + 1)%nat) as [v Hv]; [lia|].
    by rewrite Hp, Hv. }
  rewrite Hpv. exists ((pair_of <$> seq 0 (Z.to_nat (NCOST g))).*2). split.
  - by rewrite !length_fmap, length_seq.
  - cbn. unfold declared_powers. by rewrite <- list_fmap_compose.
Qed.

Lemma cost_curve_fixed (segs : pyval) (g : Generator) :
  MODEL g = 0 → cost_curve segs g = Ok (Some ([0%Q; PMAX g], [0%Q; (1 # 100)%Q])).
Proof. intros HM. unfold cost_curve. rewrite HM. reflexivity. Qed.

(** Both arrays of a curve have one length. *)
Lemma cost_curve_lengths (segs : pyval) (g : Generator) (p v : list Q) :
  cost_curve segs g = Ok (Some (p, v)) → length p = length v.
Proof.
  unfold cost_curve. intros H.
  destruct (MODEL g =? 2).
  { apply fmap_Ok in H as ([p' v'] & H & [= -> ->]).
    unfold polynomial_curve in H. destruct (NCOST g =? 2).
    - apply bind_Ok in H as (c0 & _ & H). apply bind_Ok in H as (c1 & _ & H).
      injection H as <- <-. by rewrite ?length_fmap.
    - destruct (NCOST g =? 3); [|discriminate].
      apply bind_Ok in H as (num & _ & H). apply bind_Ok in H as (c0 & _ & H).
      apply bind_Ok in H as (c1 & _ & H). apply bind_Ok in H as (c2 & _ & H).
      injection H as <- <-. by rewrite length_fmap. }
  destruct (MODEL g =? 1).
  { apply fmap_Ok in H as ([p' v'] & H & [= -> ->]).
    unfold piecewise_curve in H.
    destruct (NCOST g =? 1); [discriminate|]. destruct (NCOST g <? 0); [discriminate|].
    apply bind_Ok in H as (pv & _ & H). injection H as <- <-.
    by rewrite !length_fmap. }
  destruct (MODEL g =? 0); [|discriminate]. by injection H as <- <-.
Qed.

Lemma cost_curve_well_formed (segs : pyval) (g : Generator) :
  well_formed segs g →
  ∃ p v, cost_curve segs g = Ok (Some (p, v))
       ∧ (2 ≤ length p)%nat ∧ nondecreasing p.
Proof.
  intros [(HM & HN & Hlen & Hle)|[(HM & HN & Hlen & Hle & n & -> & Hn)
         |[(HM & HN & Hlen & Hs)|(HM & Hle)]]].
  - destruct (lookup_lt_is_Some_2 (COST g) 0%nat) as [c0 H0]; [lia|].
    destruct (lookup_lt_is_Some_2 (COST g) 1%nat) as [c1 H1]; [lia|].
    rewrite (cost_curve_linear segs g c0 c1 HM HN H0 H1).
    eexists _, _. split; [reflexivity|]. split; [by rewrite linspace_length|].
    apply linspace_sorted. destruct (Qeq_bool _ _); lra.
  - destruct (lookup_lt_is_Some_2 (COST g) 0%nat) as [c0 H0]; [lia|].
    destruct (lookup_lt_is_Some_2 (COST g) 1%nat) as [c1 H1]; [lia|].
    destruct (lookup_lt_is_Some_2 (COST g) 2%nat) as [c2 H2]; [lia|].
    assert (Hnum : as_num (PyInt n) = Ok (Z.to_nat n)).
    { cbn. destruct (n <? 0) eqn:E; [lia|reflexivity]. }
    rewrite (cost_curve_quadratic _ g _ c0 c1 c2 HM HN Hnum H0 H1 H2).
    eexists _, _. split; [reflexivity|]. split; [rewrite linspace_length; lia|].
    by apply linspace_sorted.
  - destruct (cost_curve_piecewise segs g HM HN Hlen) as (v & Hv & ->).
    eexists _, _. split; [reflexivity|]. split; [|exact Hs].
    unfold declared_powers. rewrite length_fmap, length_seq. lia.
  - rewrite (cost_curve_fixed segs g HM).
    eexists _, _. split; [reflexivity|]. split; [cbn; lia|].
    repeat constructor. exact Hle.
Qed.

(** *** The ordered dicts *)

Lemma od_get_set_eq {A} (k : string) (a : A) (d : list (string * A)) :
  od_get k (od_set k a d) = Some a.
Proof.
  induction d as [|[k' a'] d IH]; cbn.
  - by rewrite bool_decide_true.
  - case_bool_decide; cbn.
    + by rewrite bool_decide_true.
    + by rewrite bool_decide_false.
Qed.

Lemma od_get_set_ne {A} (k k' : string) (a : A) (d : list (string * A)) :
  k ≠ k' → od_get k (od_set k' a d) = od_get k d.
Proof.
  intros Hne. induction d as [|[k'' a''] d IH]; cbn.
  - by rewrite bool_decide_false.
  - destruct (bool_decide (k'' = k')) eqn:E; cbn.
    + apply bool_decide_eq_true in E as ->. by rewrite !bool_decide_false.
    + destruct (bool_decide (k'' = k)); [reflexivity | exact IH].
Qed.

Lemma od_get_set_is_Some {A} (k k' : string) (a : A) (d : list (string * A)) :
  is_Some (od_get k d) → is_Some (od_get k (od_set k' a d)).
Proof.
  intros H. destruct (decide (k = k')) as [->|Hne].
  - rewrite od_get_set_eq. eauto.
  - by rewrite od_get_set_ne.
Qed.

Lemma od_set_Forall {A} (P : A -> Prop) (k : string) (a : A) (d : list (string * A)) :
  Forall (fun kv => P (snd kv)) d → P a →
  Forall (fun kv => P (snd kv)) (od_set k a d).
Proof.
  intros Hd Ha. induction Hd as [|[k' a'] d Hx Hd IH]; cbn.
  - by repeat constructor.
  - destruct (bool_decide (k' = k)); by constructor.
Qed.

Lemma od_set_aligned {A B} (R : A -> B -> Prop) (k : string) (a : A) (b : B)
    (d1 : list (string * A)) (d2 : list (string * B)) :
  aligned R d1 d2 → R a b → aligned R (od_set k a d1) (od_set k b d2).
Proof.
  intros Hd Hab. induction Hd as [|[k1 a1] [k2 b2] d1 d2 [Hk Hr] Hd IH]; cbn in *.
  - by repeat constructor.
  - subst k2. destruct (bool_decide (k1 = k)); by constructor.
Qed.

Lemma aligned_short (d1 d2 : list (string * list Q)) :
  aligned (fun p v => length p = length v) d1 d2 → short_curve d2 → short_curve d1.
Proof.
  unfold short_curve. induction 1 as [|x y d1 d2 [_ Hl] _ IH]; intros H.
  - by apply Exists_nil in H.
  - apply Exists_cons in H as [H|H].
    + apply Exists_cons_hd. by rewrite Hl.
    + by apply Exists_cons_tl, IH.
Qed.

(** *** The loop over the generators *)

Lemma cost_curves_cons (segs : pyval) (g : Generator) (gens : list Generator)
    (acc c : Curves) :
  cost_curves segs (g :: gens) acc = Ok c →
  ∃ cur, cost_curve segs g = Ok cur
       ∧ cost_curves segs gens
           match cur with
           | Some (p, v) => (od_set (gen_name g) p (fst acc), od_set (gen_name g) v (snd acc))
           | None => acc
           end = Ok c.
Proof. cbn. intros H. apply bind_Ok in H as (cur & Hcur & H). eauto. Qed.

Lemma cost_curves_aligned (segs : pyval) (gens : list Generator) (acc c : Curves) :
  aligned (fun p v => length p = length v) (fst acc) (snd acc) →
  cost_curves segs gens acc = Ok c →
  aligned (fun p v => length p = length v) (fst c) (snd c).
Proof.
  revert acc. induction gens as [|g gens IH]; intros acc Hacc H.
  - by injection H as <-.
  - apply cost_curves_cons in H as ([[p v]|] & Hcur & H); eapply IH; try exact H.
    + cbn. apply od_set_aligned; [exact Hacc|]. by eapply cost_curve_lengths.
    + exact Hacc.
Qed.

Lemma cost_curves_Forall (P : list Q -> Prop) (segs : pyval) (gens : list Generator)
    (acc c : Curves) :
  (∀ g p v, g ∈ gens → cost_curve segs g = Ok (Some (p, v)) → P p) →
  Forall (fun kv => P (snd kv)) (fst acc) →
  cost_curves segs gens acc = Ok c →
  Forall (fun kv => P (snd kv)) (fst c).
Proof.
  revert acc. induction gens as [|g gens IH]; intros acc HP Hacc H.
  - by injection H as <-.
  - apply cost_curves_cons in H as ([[p v]|] & Hcur & H); eapply IH; try exact H.
    + intros g' p' v' Hg'. apply HP. by apply elem_of_cons; right.
    + cbn. apply od_set_Forall; [exact Hacc|].
      eapply HP; [|exact Hcur]. by apply elem_of_cons; left.
    + intros g' p' v' Hg'. apply HP. by apply elem_of_cons; right.
    + exact Hacc.
Qed.

Lemma cost_curves_keeps (segs : pyval) (gens : list Generator) (acc c : Curves)
    (k : string) :
  is_Some (od_get k (fst acc)) → cost_curves segs gens acc = Ok c →
  is_Some (od_get k (fst c)).
Proof.
  revert acc. induction gens as [|g gens IH]; intros acc Hacc H.
  - by injection H as <-.
  - apply cost_curves_cons in H as ([[p v]|] & Hcur & H); eapply IH; try exact H.
    + cbn. by apply od_get_set_is_Some.
    + exact Hacc.
Qed.

Lemma cost_curves_has (segs : pyval) (gens : list Generator) (acc c : Curves)
    (g : Generator) :
  g ∈ gens → (∃ cur, cost_curve segs g = Ok (Some cur)) →
  cost_curves segs gens acc = Ok c →
  is_Some (od_get (gen_name g) (fst c)).
Proof.
  revert acc. induction gens as [|g' gens IH]; intros acc Hg [cur Hcur] H.
  - by apply elem_of_nil in Hg.
  - apply cost_curves_cons in H as (cur' & Hcur' & H).
    apply elem_of_cons in Hg as [->|Hg].
    + rewrite Hcur in Hcur'. injection Hcur' as <-. destruct cur as [p v].
      eapply cost_curves_keeps; [|exact H]. cbn. rewrite od_get_set_eq. eauto.
    + eapply IH; eauto.
Qed.

Lemma cost_curves_total (segs : pyval) (gens : list Generator) (acc : Curves) :
  Forall (well_formed segs) gens → ∃ c, cost_curves segs gens acc = Ok c.
Proof.
  intros Hwf. revert acc. induction Hwf as [|g gens Hg _ IH]; intros acc; cbn.
  - eauto.
  - destruct (cost_curve_well_formed segs g Hg) as (p & v & -> & _). apply IH.
Qed.

(** *** The validation loops *)

Lemma validate_Ok (what tmpl : string) (d : list (string * list Q)) :
  validate what tmpl d = Ok tt ↔ Forall (fun kv => (2 ≤ length (snd kv))%nat) d.
Proof.
  induction d as [|[k v] d IH]; cbn.
  - split; [constructor | reflexivity].
  - destruct (bool_decide (2 ≤ length v)%nat) eqn:E.
    + apply bool_decide_eq_true in E. rewrite IH.
      split; [by constructor | by inversion 1].
    + apply bool_decide_eq_false in E.
      split; [discriminate | inversion 1; subst; cbn in *; lia].
Qed.

Lemma validate_Raise (what tmpl : string) (d : list (string * list Q)) :
  short_curve d →
  ∃ k v, validate what tmpl d =
           Raise (AssertionError
                    (Format tmpl [(what, FNums v); ("genco", FVal (PyStr k))]))
       ∧ (k, v) ∈ d ∧ (length v < 2)%nat.
Proof.
  unfold short_curve. induction d as [|[k v] d IH]; intros H.
  - by apply Exists_nil in H.
  - cbn. destruct (bool_decide (2 ≤ length v)%nat) eqn:E.
    + apply bool_decide_eq_true in E.
      apply Exists_cons in H as [H|H]; [cbn in H; lia|].
      destruct (IH H) as (k' & v' & -> & Hin & Hlen).
      exists k', v'. repeat split; [by apply elem_of_cons; right | exact Hlen].
    + apply bool_decide_eq_false in E.
      exists k, v. repeat split; [by apply elem_of_cons; left | lia].
Qed.

Lemma validated_curves_Ok (segs : pyval) (gens : list Generator) (c : Curves) :
  validated_curves segs gens = Ok c →
  cost_curves segs gens ([], []) = Ok c
  ∧ Forall (fun kv => (2 ≤ length (snd kv))%nat) (fst c)
  ∧ Forall (fun kv => (2 ≤ length (snd kv))%nat) (snd c).
Proof.
  unfold validated_curves. intros H.
  apply bind_Ok in H as (c' & Hc & H).
  apply bind_Ok in H as ([] & Hp & H).
  apply bind_Ok in H as ([] & Hv & H). injection H as <-.
  apply validate_Ok in Hp, Hv. done.
Qed.

Lemma build_assembly_curves (a : BuildArgs) (asm : Assembly) :
  snd (build_assembly a) = Ok asm →
  validated_curves (configured "segments" (PyInt 2) a) (generator_df a)
  = Ok (points asm, values asm).
Proof.
  intros H. apply build_assembly_Ok in H. rewrite configure_options in H.
  apply assemble_from_Ok in H as (ln & i & c & fr & _ & _ & Hc & _ & ->).
  cbn in *. by destruct c.
Qed.

Lemma aligned_long (d1 d2 : list (string * list Q)) :
  aligned (fun p v => length p = length v) d1 d2 →
  Forall (fun kv => (2 ≤ length (snd kv))%nat) d1 →
  Forall (fun kv => (2 ≤ length (snd kv))%nat) d2.
Proof.
  induction 1 as [|x y d1 d2 [_ Hl] _ IH]; intros H; [constructor|].
  apply Forall_cons in H as [Hx H]. constructor; [lia | by apply IH].
Qed.

Lemma cost_curves_fresh (segs : pyval) (gens : list Generator) (acc c : Curves)
    (k : string) :
  k ∉ gen_name <$> gens → cost_curves segs gens acc = Ok c →
  od_get k (fst c) = od_get k (fst acc) ∧ od_get k (snd c) = od_get k (snd acc).
Proof.
  revert acc. induction gens as [|g gens IH]; intros acc Hk H.
  - by injection H as <-.
  - cbn in Hk. apply not_elem_of_cons in Hk as [Hne Hk].
    apply cost_curves_cons in H as ([[p v]|] & Hcur & H);
      destruct (IH _ Hk H) as [-> ->]; cbn; [|done].
    by rewrite !od_get_set_ne.
Qed.

Lemma cost_curves_get (segs : pyval) (gens : list Generator) (acc c : Curves)
    (g : Generator) :
  NoDup (gen_name <$> gens) → g ∈ gens →
  cost_curves segs gens acc = Ok c →
  ∃ cur, cost_curve segs g = Ok cur
       ∧ ∀ p v, cur = Some (p, v) →
           od_get (gen_name g) (fst c) = Some p
           ∧ od_get (gen_name g) (snd c) = Some v.
Proof.
  revert acc. induction gens as [|g' gens IH]; intros acc Hnd Hg H.
  - by apply elem_of_nil in Hg.
  - cbn in Hnd. apply NoDup_cons in Hnd as [Hfresh Hnd].
    apply cost_curves_cons in H as (cur & Hcur & H).
    apply elem_of_cons in Hg as [->|Hg]; [|by eapply IH].
    exists cur. split; [exact Hcur|]. intros p v ->.
    destruct (cost_curves_fresh _ _ _ _ _ Hfresh H) as [-> ->]. cbn.
    by rewrite !od_get_set_eq.
Qed.

(** C6. The curve stage of a build over generators with well-formed
    inputs ([MODEL] 0, 1 or 2) passes; in every successful build each
    points and values array has at least 2 entries, and with well-formed
    inputs every generator has a curve and the power values of each curve
    are in non-decreasing order.  When an array built for some generator
    has fewer than 2 entries the stage raises an [AssertionError] whose
    message is formatted with [genco] set to a generator whose points
    array is that short, and the single-point assertion on a piecewise
    curve is formatted with the generator's label. *)
Theorem cost_curves_validated (a : BuildArgs) :
  let segs := configured "segments" (PyInt 2) a in
  let gens := generator_df a in
  (Forall (well_formed segs) gens → ∃ c, validated_curves segs gens = Ok c)
  ∧ (∀ asm, snd (build_assembly a) = Ok asm →
       Forall (fun kv => (2 ≤ length (snd kv))%nat) (points asm)
       ∧ Forall (fun kv => (2 ≤ length (snd kv))%nat) (values asm)
       ∧ (Forall (well_formed segs) gens →
            (∀ g, g ∈ gens → is_Some (od_get (gen_name g) (points asm)))
            ∧ Forall (fun kv => nondecreasing (snd kv)) (points asm)))
  ∧ (∀ c, cost_curves segs gens ([], []) = Ok c →
       short_curve (fst c) ∨ short_curve (snd c) →
       ∃ e k p, validated_curves segs gens = Raise e
              ∧ names_generator e k ∧ (k, p) ∈ fst c ∧ (length p < 2)%nat)
  ∧ (∀ g, MODEL g = 1 → NCOST g = 1 →
       ∃ m, cost_curve segs g = Raise (AssertionError m)
          ∧ ("", FVal (PyStr (gen_name g))) ∈ fargs m).
Proof.
  intros segs gens.
  assert (Hwf_P : ∀ P : list Q -> Prop,
            (∀ g p, well_formed segs g → (2 ≤ length p)%nat → nondecreasing p → P p) →
            Forall (well_formed segs) gens →
            ∀ c, cost_curves segs gens ([], []) = Ok c →
                 Forall (fun kv => P (snd kv)) (fst c)).
  { intros P HP Hwf c Hc.
    apply (cost_curves_Forall P segs gens ([], []) c); [|constructor|exact Hc].
    intros g p v Hg Hcur. rewrite Forall_forall in Hwf.
    destruct (cost_curve_well_formed segs g (Hwf g Hg)) as (p' & v' & Hcur' & H2 & Hs).
    rewrite Hcur in Hcur'. injection Hcur' as <- <-. by eapply HP; [apply Hwf|..]. }
  assert (Hal : ∀ c, cost_curves segs gens ([], []) = Ok c →
                  aligned (fun p v => length p = length v) (fst c) (snd c)).
  { intros c Hc. apply (cost_curves_aligned segs gens ([], []) c); [constructor|exact Hc]. }
  split; [|split; [|split]].
  - intros Hwf. destruct (cost_curves_total segs gens ([], []) Hwf) as [c Hc].
    exists c. unfold validated_curves. rewrite Hc. cbn [mbind result_bind].
    assert (Hp : Forall (fun kv => (2 ≤ length (snd kv))%nat) (fst c))
      by (apply (Hwf_P (fun p => (2 ≤ length p)%nat)); auto).
    pose proof (aligned_long _ _ (Hal c Hc) Hp) as Hv.
    rewrite (proj2 (validate_Ok _ _ _) Hp). cbn [mbind result_bind].
    by rewrite (proj2 (validate_Ok _ _ _) Hv).
  - intros asm Hasm. apply build_assembly_curves, validated_curves_Ok in Hasm.
    cbn [fst snd] in Hasm. destruct Hasm as (Hc & Hp & Hv).
    split; [exact Hp|]. split; [exact Hv|]. intros Hwf. split.
    + intros g Hg. rewrite Forall_forall in Hwf.
      destruct (cost_curve_well_formed segs g (Hwf g Hg)) as (p & v & Hcur & _).
      by eapply (cost_curves_has segs gens _ (points asm, values asm) g); eauto.
    + by apply (Hwf_P nondecreasing) with (c := (points asm, values asm)).
  - intros c Hc Hshort.
    assert (Hs : short_curve (fst c)).
    { destruct Hshort as [H|H]; [exact H|]. eapply aligned_short; [by apply Hal|exact H]. }
    destruct (validate_Raise "points" points_template (fst c) Hs) as (k & p & Hr & Hin & Hlen).
    exists (AssertionError
              (Format points_template [("points", FNums p); ("genco", FVal (PyStr k))])), k, p.
    split; [|split; [|split]]; [|by eexists _, _, _|exact Hin|exact Hlen].
    unfold validated_curves. rewrite Hc. cbn [mbind result_bind]. by rewrite Hr.
  - intros g HM HN. unfold cost_curve, piecewise_curve. rewrite HM, HN.
    eexists. split; [reflexivity|]. cbn. apply elem_of_cons; by left.
Qed.

Lemma sample_generators_well_formed (segs : pyval) :
  Forall (well_formed segs) [unit_g1; unit_g2].
Proof.
  assert (∀ g, g = unit_g1 ∨ g = unit_g2 → well_formed segs g) as H.
  { intros g [->| ->]; left; repeat split; try reflexivity; cbn; try lia;
      unfold Qle; cbn; lia. }
  apply List.Forall_cons; [apply H; by left|].
  apply List.Forall_cons; [apply H; by right|]. apply List.Forall_nil.
Qed.

Lemma cost_curves_validated_witness :
  match snd (build_assembly (sample_args None)) with
  | Ok asm =>
      Forall (fun kv => (2 ≤ length (snd kv))%nat) (points asm)
      ∧ Forall (fun kv => nondecreasing (snd kv)) (points asm)
  | Raise _ => False
  end.
Proof.
  destruct (snd (build_assembly (sample_args None))) as [asm|e] eqn:E.
  - destruct (cost_curves_validated (sample_args None)) as (_ & H2 & _).
    destruct (H2 asm E) as (Hp & _ & Hwf).
    split; [exact Hp|]. apply Hwf, sample_generators_well_formed.
  - vm_compute in E. discriminate E.
Defined.

(** A quadratic cost sampled at one point only is caught by the
    validation, which names the generator. *)
Example single_sample_rejected :
  validated_curves (PyInt 1)
    [{| gen_name := "g3"; PMIN := 10; PMAX := 50; MODEL := 2; NCOST := 3;
        COST := [5%Q; 2%Q; 1%Q]; STARTUP := 0; SHUTDOWN := 0 |}]
  = Raise (AssertionError
             (Format points_template
                [("points", FNums [10%Q]); ("genco", FVal (PyStr "g3"))])).
Proof. reflexivity. Qed.

(** C7. In a build, a generator (with a label of its own) of polynomial
    cost with two coefficients gets exactly two breakpoints: the lower at
    [PMIN], the upper at [PMAX], or at [PMAX + 1] when [PMIN] equals
    [PMAX]; the cost at each is [COST_0 + COST_1 * p] at that power. *)
Theorem linear_cost_breakpoints (a : BuildArgs) (asm : Assembly) (g : Generator) :
  snd (build_assembly a) = Ok asm →
  NoDup (gen_name <$> generator_df a) → g ∈ generator_df a →
  MODEL g = 2 → NCOST g = 2 →
  ∃ c0 c1 lo hi vlo vhi,
    COST g !! 0%nat = Some c0 ∧ COST g !! 1%nat = Some c1
    ∧ od_get (gen_name g) (points asm) = Some [lo; hi]
    ∧ od_get (gen_name g) (values asm) = Some [vlo; vhi]
    ∧ (lo == PMIN g)%Q
    ∧ ((PMIN g == PMAX g)%Q → (hi == PMAX g + 1)%Q)
    ∧ (¬ (PMIN g == PMAX g)%Q → (hi == PMAX g)%Q)
    ∧ (vlo == c0 + c1 * PMIN g)%Q
    ∧ (vhi == c0 + c1 * hi)%Q.
Proof.
  intros Hasm Hnd Hg HM HN.
  apply build_assembly_curves, validated_curves_Ok in Hasm as (Hc & _ & _).
  destruct (cost_curves_get _ _ _ _ g Hnd Hg Hc) as (cur & Hcur & Hget).
  assert (∃ c0 c1, COST g !! 0%nat = Some c0 ∧ COST g !! 1%nat = Some c1)
    as (c0 & c1 & H0 & H1).
  { unfold cost_curve, polynomial_curve in Hcur. rewrite HM, HN in Hcur.
    cbn [Z.eqb Pos.eqb] in Hcur. cbv iota in Hcur.
    apply fmap_Ok in Hcur as (x & Hcur & _).
    apply bind_Ok in Hcur as (c0 & H0 & Hcur).
    apply bind_Ok in Hcur as (c1 & H1 & _).
    apply cost_cell_Ok in H0, H1. eauto. }
  rewrite (cost_curve_linear _ g c0 c1 HM HN H0 H1) in Hcur.
  injection Hcur as <-. cbn in Hget.
  destruct (Hget _ _ eq_refl) as [Hp Hv]. cbn [fst snd] in Hp, Hv.
  eexists c0, c1, _, _, _, _.
  split; [exact H0|]. split; [exact H1|]. split; [exact Hp|]. split; [exact Hv|].
  destruct (Qeq_bool (PMIN g) (PMAX g)) eqn:E.
  - apply Qeq_bool_iff in E. repeat split; intros; try ring. contradiction.
  - apply Qeq_bool_neq in E. repeat split; intros; try ring. contradiction.
Qed.

Lemma linear_cost_breakpoints_witness :
  match snd (build_assembly (sample_args None)) with
  | Ok asm =>
      ∃ c0 c1 lo hi vlo vhi,
        COST unit_g2 !! 0%nat = Some c0 ∧ COST unit_g2 !! 1%nat = Some c1
        ∧ od_get "g2" (points asm) = Some [lo; hi]
        ∧ od_get "g2" (values asm) = Some [vlo; vhi]
        ∧ (lo == PMIN unit_g2)%Q
        ∧ ((PMIN unit_g2 == PMAX unit_g2)%Q → (hi == PMAX unit_g2 + 1)%Q)
        ∧ (¬ (PMIN unit_g2 == PMAX unit_g2)%Q → (hi == PMAX unit_g2)%Q)
        ∧ (vlo == c0 + c1 * PMIN unit_g2)%Q
        ∧ (vhi == c0 + c1 * hi)%Q
  | Raise _ => False
  end.
Proof.
  destruct (snd (build_assembly (sample_args None))) as [asm|e] eqn:E.
  - apply (linear_cost_breakpoints (sample_args None) asm unit_g2 E); sample_frame.
  - vm_compute in E. discriminate E.
Defined.

(** ** solve *)


Lemma fix_cells_app (cs1 cs2 : list ((string * Z) * option Q)) (m : Model) :
  fix_cells (cs1 ++ cs2) m = fix_cells cs1 m ≫= fix_cells cs2.
Proof.
  revert m. induction cs1 as [|[k v] cs1 IH]; intros m; cbn; [reflexivity|].
  destruct (fix_cell (snd k) m (fst k, v)) as [m'|e]; cbn; [apply IH | reflexivity].
Qed.

Lemma fix_row_cells (t : Z) (row : list (string * option Q)) (m : Model) :
  fix_row t row m = fix_cells ((fun gv => ((fst gv, t), snd gv)) <$> row) m.
Proof.
  revert m. induction row as [|[g v] row IH]; intros m; cbn; [reflexivity|].
  destruct (fix_cell t m (g, v)) as [m'|e]; cbn; [apply IH | reflexivity].
Qed.

Lemma fix_commitment_cells (table : list (Z * list (string * option Q))) (m : Model) :
  fix_commitment table m = fix_cells (cells table) m.
Proof.
  revert m. induction table as [|[t row] table IH]; intros m; [reflexivity|].
  cbn [fix_commitment]. unfold cells. cbn [mbind list_bind fst snd]. fold (cells table).
  rewrite fix_cells_app, <- fix_row_cells.
  destruct (fix_row t row m) as [m'|e]; cbn; [apply IH | reflexivity].
Qed.

(** The fields [solve] leaves alone while it fixes variables. *)
Lemma fix_cell_inv (t : Z) (m m' : Model) (g : string) (c : option Q) :
  fix_cell t m (g, c) = Ok m' →
  match c with
  | None => m' = m
  | Some v =>
      is_Some (UnitOn m !! (g, t))
      ∧ m' = set_UnitOn (<[(g, t) := fixed_at (int_of_float v)]> (UnitOn m)) m
  end.
Proof.
  unfold fix_cell. cbn [fst snd]. destruct c as [v|]; [|by intros [= <-]].
  destruct (UnitOn m !! (g, t)) as [var|] eqn:E; [|discriminate].
  intros [= <-]. eauto.
Qed.











Lemma resolve_phase_trigger solve_model unit_commitment (self : PSSTModel)
    (solver : string) (verbose keepfiles resolve : bool) (kwargs : gmap string pyval) :
  resolve_phase_ran
    (fst (solve solve_model unit_commitment self solver verbose keepfiles resolve kwargs))
  = true →
  resolve = true ∨ solver = "xpress".
Proof.
  unfold solve, resolve_phase_ran.
  destruct (solve_model (_model self) _) as [m1|e]; [|discriminate].
  case_bool_decide as E; [by right|].
  destruct resolve; [by left | discriminate].
Qed.

Lemma solve_with_defaults_single solve_model unit_commitment (self : PSSTModel) :
  resolve_phase_ran (fst (solve_with_defaults solve_model unit_commitment self)) = false.
Proof.
  destruct (resolve_phase_ran _) eqn:E; [|reflexivity].
  apply resolve_phase_trigger in E as [E|E]; discriminate E.
Qed.

(** C3 (as amended). The [resolve] option of the configuration is popped
    by [build_model] and handed to the minimum-up-time and
    minimum-down-time constraint construction only; the object returned
    keeps no trace of it outside the Pyomo model.  Whatever the
    configuration, [solve] called with the defaults of its signature makes
    no continuous re-solve, and the fix-and-resolve phase runs only on
    [solve]'s own [resolve] argument or for the solver [xpress]. *)
Theorem config_resolve_not_read_by_solve solve_model unit_commitment assemble
    (a : BuildArgs) (self : PSSTModel) :
  snd (build_model assemble a) = Ok self →
  (∃ asm, snd (build_assembly a) = Ok asm
        ∧ self = PSSTModel_init (assemble asm) (case a)
        ∧ up_down_time_resolve asm = configured "resolve" (PyBool false) a)
  ∧ resolve_phase_ran (fst (solve_with_defaults solve_model unit_commitment self)) = false
  ∧ (∀ solver verbose keepfiles resolve kwargs,
       resolve_phase_ran
         (fst (solve solve_model unit_commitment self solver verbose keepfiles resolve kwargs))
       = true →
       resolve = true ∨ solver = "xpress").
Proof.
  intros H. rewrite build_model_result in H. apply fmap_Ok in H as (asm & Hasm & ->).
  split; [|split].
  - exists asm. split; [exact Hasm|]. split; [reflexivity|].
    apply build_assembly_Ok in Hasm. rewrite configure_options in Hasm.
    by apply assemble_from_Ok in Hasm as (ln & i & c & fr & _ & _ & _ & _ & ->).
  - apply solve_with_defaults_single.
  - intros *. apply resolve_phase_trigger.
Qed.

Lemma config_resolve_not_read_by_solve_witness :
  match snd (build_model bare_model (sample_args (Some resolve_config))) with
  | Ok self =>
      resolve_phase_ran (fst (solve_with_defaults echo_solver exact_commitment self))
      = false
  | Raise _ => False
  end.
Proof.
  destruct (snd (build_model bare_model (sample_args (Some resolve_config))))
    as [self|e] eqn:E.
  - apply (config_resolve_not_read_by_solve echo_solver exact_commitment bare_model
             (sample_args (Some resolve_config)) self E).
  - vm_compute in E. discriminate E.
Defined.

(** C3 (as stated) fails: a build with [resolve] set to true in the
    configuration succeeds, and [solve()] on its result makes the one
    mixed-integer solve and no continuous re-solve. *)
Lemma config_resolve_does_not_force_phase :
  configured "resolve" (PyBool false) (sample_args (Some resolve_config)) = PyBool true
  ∧ match snd (build_model bare_model (sample_args (Some resolve_config))) with
    | Ok self =>
        resolve_phase_ran (fst (solve_with_defaults echo_solver exact_commitment self))
        = false
        ∧ length (fst (solve_with_defaults echo_solver exact_commitment self)) = 1%nat
    | Raise _ => False
    end.
Proof.
  split; [reflexivity|].
  destruct (snd (build_model bare_model (sample_args (Some resolve_config))))
    as [self|e] eqn:E; [|vm_compute in E; discriminate E].
  split; [apply solve_with_defaults_single | reflexivity].
Qed.

(** * Further properties *)

Local Open Scope list_scope.

(** ** Initial state: the final run of the trace *)

Lemma diff_from_app (prev : option Z) (s1 s2 : Series) :
  ∃ prev', diff_from prev (s1 ++ s2) = diff_from prev s1 ++ diff_from prev' s2.
Proof.
  revert prev. induction s1 as [|[i v] s1 IH]; intros prev; cbn.
  - by exists prev.
  - destruct (IH v) as [prev' ->]. by exists prev'.
Qed.

Lemma dropna_app (s1 s2 : Series) : dropna (s1 ++ s2) = dropna s1 ++ dropna s2.
Proof. apply filter_app. Qed.

Lemma nonzero_app (s1 s2 : Series) : nonzero (s1 ++ s2) = nonzero s1 ++ nonzero s2.
Proof. apply filter_app. Qed.

Lemma dropna_cons_Some (i v : Z) (s : Series) :
  dropna ((i, Some v) :: s) = (i, Some v) :: dropna s.
Proof. apply filter_cons_True. cbn. eauto. Qed.

Lemma dropna_cons_None (i : Z) (s : Series) : dropna ((i, None) :: s) = dropna s.
Proof. apply filter_cons_False. cbn. by intros []. Qed.

Lemma nonzero_cons_change (i : Z) (v : option Z) (s : Series) :
  v ≠ Some 0 → nonzero ((i, v) :: s) = (i, v) :: nonzero s.
Proof. intros H. by apply filter_cons_True. Qed.

Lemma nonzero_cons_same (i : Z) (s : Series) :
  nonzero ((i, Some 0) :: s) = nonzero s.
Proof. apply filter_cons_False. cbn. by intros []. Qed.

Lemma no_change_in_run (b : Z) (index : list Z) (k : nat) :
  nonzero (dropna (diff_from (Some b) (zip index (Some <$> replicate k b)))) = [].
Proof.
  revert index. induction k as [|k IH]; intros [|i index]; try reflexivity.
  change (zip (i :: index) (Some <$> replicate (S k) b))
    with ((i, Some b) :: zip index (Some <$> replicate k b)).
  cbn [diff_from cell_sub]. rewrite Z.sub_diag.
  rewrite dropna_cons_Some, nonzero_cons_same. apply IH.
Qed.

Lemma range_from_app (o : Z) (n m : nat) :
  range_from o (n + m) = range_from o n ++ range_from (o + Z.of_nat n) m.
Proof.
  unfold range_from. rewrite seq_app, fmap_app. f_equal. cbn [Nat.add].
  replace (seq n m) with (Nat.add n <$> seq 0 m)
    by (rewrite fmap_add_seq; f_equal; lia).
  rewrite <- list_fmap_compose. apply list_fmap_ext. intros _ i _. cbn. lia.
Qed.

Lemma range_from_cons (o : Z) (n : nat) :
  range_from o (S n) = o :: range_from (o + 1) n.
Proof.
  unfold range_from. cbn [seq fmap list_fmap]. f_equal; [lia|].
  rewrite <- fmap_S_seq, <- list_fmap_compose.
  apply list_fmap_ext. intros _ i _. cbn. lia.
Qed.

Lemma range_from_length (o : Z) (n : nat) : length (range_from o n) = n.
Proof. unfold range_from. by rewrite length_fmap, length_seq. Qed.

(** The transitions of a column that ends in a run of [b] after an [a]:
    the last one is at the first row of the run. *)
Lemma last_change_of_run (prev : option Z) (index1 index2 pre : list Z)
    (ia ib a b : Z) (k : nat) :
  a ≠ b → length index1 = length pre →
  ∃ L, nonzero (dropna (diff_from prev
         (zip (index1 ++ ia :: ib :: index2)
              (Some <$> (pre ++ a :: b :: replicate k b)))))
       = L ++ [(ib, Some (b - a))].
Proof.
  intros Hab Hlen. rewrite fmap_app.
  rewrite (zip_with_app pair index1 _ (Some <$> pre))
    by (by rewrite length_fmap).
  destruct (diff_from_app prev (zip_with pair index1 (Some <$> pre))
              (zip_with pair (ia :: ib :: index2)
                 (Some <$> a :: b :: replicate k b))) as [prev' ->].
  change (zip_with pair (ia :: ib :: index2) (Some <$> a :: b :: replicate k b))
    with ((ia, Some a) :: (ib, Some b) :: zip index2 (Some <$> replicate k b)).
  cbn [diff_from]. change (cell_sub (Some b) (Some a)) with (Some (b - a)).
  rewrite dropna_app, nonzero_app.
  assert (Hba : Some (b - a) ≠ Some 0) by (intros [=]; lia).
  destruct (cell_sub (Some a) prev') as [x|].
  - rewrite !dropna_cons_Some.
    destruct (decide (Some x = Some 0)) as [[= ->]|Hx].
    + rewrite nonzero_cons_same, (nonzero_cons_change _ _ _ Hba), no_change_in_run.
      eexists. reflexivity.
    + rewrite (nonzero_cons_change _ _ _ Hx), (nonzero_cons_change _ _ _ Hba),
        no_change_in_run.
      eexists (_ ++ [_]). by rewrite <- app_assoc.
  - rewrite dropna_cons_None, dropna_cons_Some, (nonzero_cons_change _ _ _ Hba),
      no_change_in_run.
    eexists. reflexivity.
Qed.

Lemma initial_state_of_run (o : Z) (pre : list Z) (a b : Z) (k : nat) :
  a ≠ b →
  initial_state_of (Z.of_nat (length (pre ++ a :: replicate (S k) b)))
    (range_from o (length (pre ++ a :: replicate (S k) b)))
    (pre ++ a :: replicate (S k) b)
  = Ok (if bool_decide (b - a = -1)
        then - (Z.of_nat (S k) - o) else Z.of_nat (S k) - o).
Proof.
  intros Hab. unfold initial_state_of, column, diff.
  assert (HT : length (pre ++ a :: replicate (S k) b) = (length pre + S (S k))%nat)
    by (rewrite length_app; cbn; by rewrite length_replicate).
  rewrite HT, range_from_app, !range_from_cons.
  change (replicate (S k) b) with (b :: replicate k b).
  destruct (last_change_of_run None (range_from o (length pre))
              (range_from (o + Z.of_nat (length pre) + 1 + 1) k) pre
              (o + Z.of_nat (length pre)) (o + Z.of_nat (length pre) + 1) a b k Hab)
    as [L HL]; [apply range_from_length|].
  rewrite HL. destruct (L ++ [_]) as [|r l] eqn:E; [by destruct L|].
  rewrite <- E, last_snoc.
  case_bool_decide as E1.
  - injection E1 as E1. rewrite (bool_decide_true (b - a = -1)) by exact E1.
    cbn [orb]. f_equal. lia.
  - rewrite (bool_decide_false (Some (b - a) = Some 0)) by (intros [=]; lia).
    rewrite (bool_decide_false (b - a = -1)) by (intros H; apply E1; by rewrite H).
    cbn [orb]. f_equal. lia.
Qed.

(** X1. On the row labels [o .. o+T-1], a trace that ends in a run of [k+1]
    cells [b] after a different cell [a] has the initial state
    [k + 1 - o] in size: negative when the last transition is a -1,
    positive otherwise.  On pandas' default labels ([o = 0]) this is the
    signed length of the final run. *)
Theorem initial_state_final_run (o : Z) (pre : list Z) (a b : Z) (k : nat) :
  a ≠ b →
  initial_state_of (Z.of_nat (length (pre ++ a :: replicate (S k) b)))
    (range_from o (length (pre ++ a :: replicate (S k) b)))
    (pre ++ a :: replicate (S k) b)
  = Ok (if bool_decide (b - a = -1)
        then - (Z.of_nat (S k) - o) else Z.of_nat (S k) - o).
Proof. apply initial_state_of_run. Qed.

Lemma initial_state_of_constant (T : Z) (l0 : Z) (index : list Z) (c : Z) (n : nat) :
  initial_state_of T (l0 :: index) (replicate (S n) c)
  = Ok (if bool_decide (c = -1 ∨ c = 0) then - (T - l0) else T - l0).
Proof.
  unfold initial_state_of, column, diff.
  change (zip (l0 :: index) (Some <$> replicate (S n) c))
    with ((l0, Some c) :: zip index (Some <$> replicate n c)).
  cbn [diff_from cell_sub]. rewrite dropna_cons_None, no_change_in_run. cbn [head].
  destruct (decide (c = -1)) as [->|H1]; [cbn; f_equal; lia|].
  destruct (decide (c = 0)) as [->|H0]; [cbn; f_equal; lia|].
  rewrite (bool_decide_false (Some c = Some (-1))) by (intros [=]; tauto).
  rewrite (bool_decide_false (Some c = Some 0)) by (intros [=]; tauto).
  rewrite (bool_decide_false (c = -1 ∨ c = 0)) by tauto. reflexivity.
Qed.

(** X2. A constant trace has no transition: the first row decides, and the
    initial state is the horizon less the first label, negative for a
    trace of zeros. *)
Theorem initial_state_constant_trace (T : Z) (l0 : Z) (index : list Z) (c : Z) (n : nat) :
  initial_state_of T (l0 :: index) (replicate (S n) c)
  = Ok (if bool_decide (c = -1 ∨ c = 0) then - (T - l0) else T - l0).
Proof. apply initial_state_of_constant. Qed.

Lemma initial_state_final_run_witness :
  initial_state_of 5 (range_from 0 5) [0; 1; 1; 0; 0] = Ok (-2)
  ∧ initial_state_of 5 (range_from 1 5) [0; 0; 0; 0; 1] = Ok 0.
Proof.
  split.
  - apply (initial_state_final_run 0 [0; 1] 1 0 1). discriminate.
  - apply (initial_state_final_run 1 [0; 0; 0] 0 1 0). discriminate.
Defined.

Lemma final_run_decomposition (cells : list Z) :
  cells ≠ [] →
  (∃ c n, cells = replicate (S n) c)
  ∨ (∃ pre a b k, a ≠ b ∧ cells = pre ++ a :: replicate (S k) b).
Proof.
  induction cells as [|x cells IH]; [done|]. intros _.
  destruct cells as [|y cells]; [left; by exists x, 0%nat|].
  destruct IH as [(c & n & Hc)|(pre & a & b & k & Hab & Hc)]; [done|..].
  - rewrite Hc. destruct (decide (x = c)) as [->|Hne].
    + left. by exists c, (S n).
    + right. by exists [], x, c, n.
  - rewrite Hc. right. by exists (x :: pre), a, b, k.
Qed.

Lemma last_replicate (c : Z) (n : nat) : last (replicate (S n) c) = Some c.
Proof. rewrite replicate_S_end. apply last_snoc. Qed.

(** X3. On pandas' default row labels with as many load periods as rows, a
    0/1 trace always has an initial state, which is never 0, is at most
    the horizon in size, and is negative exactly when the trace ends
    off. *)
Theorem initial_state_sign_and_size (cells : list Z) :
  cells ≠ [] → Forall (fun c => c = 0 ∨ c = 1) cells →
  ∃ st, initial_state_of (Z.of_nat (length cells)) (range_from 0 (length cells)) cells
        = Ok st
      ∧ st ≠ 0
      ∧ - Z.of_nat (length cells) ≤ st ≤ Z.of_nat (length cells)
      ∧ (st < 0 ↔ last cells = Some 0).
Proof.
  intros Hne H01.
  destruct (final_run_decomposition cells Hne)
    as [(c & n & ->)|(pre & a & b & k & Hab & ->)].
  - rewrite length_replicate, range_from_cons, initial_state_of_constant, last_replicate.
    apply Forall_cons in H01 as [Hc _].
    destruct Hc as [-> | ->].
    + rewrite (bool_decide_true (0 = -1 ∨ 0 = 0)) by tauto.
      eexists. split; [reflexivity|]. split; [lia|]. split; [lia|].
      split; [reflexivity | lia].
    + rewrite (bool_decide_false (1 = -1 ∨ 1 = 0)) by lia.
      eexists. split; [reflexivity|]. split; [lia|]. split; [lia|].
      split; [lia | discriminate].
  - rewrite (initial_state_of_run 0 pre a b k Hab).
    apply Forall_app in H01 as [_ H01]. apply Forall_cons in H01 as [Ha H01].
    apply Forall_cons in H01 as [Hb _].
    assert (Hlast : last (pre ++ a :: replicate (S k) b) = Some b).
    { rewrite replicate_S_end.
      change (pre ++ a :: (replicate k b ++ [b]))
        with (pre ++ (a :: replicate k b) ++ [b]).
      rewrite app_assoc. apply last_snoc. }
    assert (Hlen : (S k ≤ length (pre ++ a :: replicate (S k) b))%nat).
    { rewrite length_app. cbn. rewrite length_replicate. lia. }
    rewrite Hlast. destruct Ha as [-> | ->], Hb as [-> | ->]; try done.
    + rewrite (bool_decide_false (1 - 0 = -1)) by lia.
      eexists. split; [reflexivity|]. split; [lia|]. split; [lia|].
      split; [lia | discriminate].
    + rewrite (bool_decide_true (0 - 1 = -1)) by lia.
      eexists. split; [reflexivity|]. split; [lia|]. split; [lia|].
      split; [reflexivity | lia].
Qed.

Lemma initial_state_sign_and_size_witness :
  ∃ st, initial_state_of 4 (range_from 0 4) [0; 1; 1; 1] = Ok st
      ∧ st ≠ 0 ∧ -4 ≤ st ≤ 4 ∧ (st < 0 ↔ last [0; 1; 1; 1] = Some 0).
Proof.
  apply (initial_state_sign_and_size [0; 1; 1; 1]); [discriminate|].
  repeat (apply List.Forall_cons; [lia|]). apply List.Forall_nil.
Defined.

(** ** The default history *)

Lemma od_set_keys {A} (k g : string) (a : A) (d : list (string * A)) :
  g ∈ (od_set k a d).*1 ↔ g = k ∨ g ∈ d.*1.
Proof.
  induction d as [|[k' a'] d IH]; cbn.
  - rewrite list_elem_of_singleton. split; [by left|].
    intros [H|H]; [done | by apply elem_of_nil in H].
  - case_bool_decide as E; cbn.
    + subst k'. rewrite !elem_of_cons. tauto.
    + rewrite !elem_of_cons, IH. tauto.
Qed.

Lemma default_columns (T : nat) (names : list string) (acc : list (string * list Z)) :
  Forall (fun c => snd c = replicate T 0) acc →
  Forall (fun c => snd c = replicate T 0)
    (foldl (fun d g => od_set g (replicate T 0) d) acc names)
  ∧ ∀ g, g ∈ (foldl (fun d g => od_set g (replicate T 0) d) acc names).*1
         ↔ g ∈ acc.*1 ∨ g ∈ names.
Proof.
  revert acc. induction names as [|n names IH]; intros acc Hacc; cbn.
  - split; [exact Hacc|]. intros g. split; [by left|].
    intros [H|H]; [done | by apply elem_of_nil in H].
  - destruct (IH (od_set n (replicate T 0) acc)) as [HF Hk].
    { by apply (od_set_Forall (fun cells => cells = replicate T 0)). }
    split; [exact HF|]. intros g. rewrite Hk, od_set_keys, elem_of_cons. tauto.
Qed.

Lemma initial_states_same (T : Z) (index : list Z) (cols : list (string * list Z))
    (acc : gmap string Z) (cells0 : list Z) (st : Z) :
  Forall (fun c => snd c = cells0) cols →
  initial_state_of T index cells0 = Ok st →
  ∃ d, initial_states T index cols acc = Ok d
     ∧ ∀ g, d !! g = if decide (g ∈ cols.*1) then Some st else acc !! g.
Proof.
  intros Hc Hst. revert acc.
  induction Hc as [|[col cells] cols Hx _ IH]; intros acc.
  - exists acc. split; [reflexivity|]. intros g.
    by rewrite decide_False by apply not_elem_of_nil.
  - cbn in Hx. subst cells. cbn [initial_states]. rewrite Hst. cbn [mbind result_bind].
    destruct (IH (<[col := st]> acc)) as (d & Hd & Hl). exists d. split; [exact Hd|].
    intros g. rewrite Hl. cbn [fmap list_fmap fst].
    destruct (decide (g ∈ cols.*1)) as [Hin|Hin].
    + by rewrite decide_True by (by apply elem_of_cons; right).
    + destruct (decide (g = col)) as [->|Hne].
      * rewrite decide_True by (by apply elem_of_cons; left). apply lookup_insert_eq.
      * rewrite decide_False by (intros [?|?]%elem_of_cons; done).
        by apply lookup_insert_ne.
Qed.

(** X4. With no prior commitment given, every generator is taken to have
    been off since the first load row: its initial state is the first
    row label less the number of load periods, and the dict has exactly
    the generator labels as keys. *)
Theorem default_history_all_off (names : list string) (l0 : Z) (rest : list Z) :
  names ≠ [] →
  ∃ d, derive_initial_state names (l0 :: rest) None = Ok d
     ∧ ∀ g, d !! g = if decide (g ∈ names)
                     then Some (l0 - Z.of_nat (S (length rest))) else None.
Proof.
  intros Hne. unfold derive_initial_state, default_previous.
  destruct (default_columns (length (l0 :: rest)) names []) as [HF Hk]; [constructor|].
  set (cols := foldl _ [] names) in *.
  assert (cols ≠ []) as Hcols.
  { destruct names as [|n names]; [done|]. intros E.
    assert (n ∈ cols.*1) as Hn by (apply Hk; right; by left).
    rewrite E in Hn. by apply elem_of_nil in Hn. }
  destruct cols as [|c cols'] eqn:Ec; [done|]. rewrite <- Ec in *.
  cbn [mbind result_bind df_index df_columns].
  destruct (initial_states_same (Z.of_nat (length (l0 :: rest))) (l0 :: rest) cols ∅
              (replicate (length (l0 :: rest)) 0)
              (- (Z.of_nat (length (l0 :: rest)) - l0)) HF) as (d & Hd & Hl).
  { cbn [length]. rewrite initial_state_of_constant.
    by rewrite bool_decide_true by tauto. }
  exists d. split; [exact Hd|]. intros g. rewrite Hl, lookup_empty.
  destruct (decide (g ∈ names)) as [Hin|Hin].
  - rewrite decide_True by (apply Hk; by right). cbn [length]. f_equal. lia.
  - rewrite decide_False; [reflexivity|]. rewrite Hk.
    intros [H|H]; [by apply elem_of_nil in H | done].
Qed.

Lemma default_history_all_off_witness :
  ∃ d, derive_initial_state ["g1"; "g2"] [0; 1; 2] None = Ok d
     ∧ ∀ g, d !! g = if decide (g ∈ ["g1"; "g2"]) then Some (0 - 3) else None.
Proof. apply (default_history_all_off ["g1"; "g2"] 0 [1; 2]). discriminate. Defined.

(** X5. With no prior commitment given, a build without generators
    hands on an empty initial state, whatever the load rows are; a build
    with generators but no load row has no row to read and raises. *)
Theorem default_history_empty_frames (names : list string) (load_index : list Z) :
  derive_initial_state [] load_index None = Ok ∅
  ∧ (names ≠ [] →
     derive_initial_state names [] None
     = Raise (TypeError "only size-1 arrays can be converted to Python scalars")).
Proof.
  split; [reflexivity|]. intros Hne. unfold derive_initial_state, default_previous.
  destruct (default_columns 0 names []) as [HF Hk]; [constructor|].
  cbn [length df_index df_columns].
  set (cols := foldl _ [] names) in *.
  destruct cols as [|[col cells] cols'] eqn:Ec.
  - destruct names as [|n names]; [done|].
    assert (n ∈ ([] : list (string * list Z)).*1) as Hn by (apply Hk; right; by left).
    by apply elem_of_nil in Hn.
  - apply Forall_cons in HF as [Hc _]. cbn in Hc. subst cells. reflexivity.
Qed.

Lemma default_history_empty_frames_witness :
  derive_initial_state ["g1"] [] None
  = Raise (TypeError "only size-1 arrays can be converted to Python scalars").
Proof. apply (default_history_empty_frames ["g1"] []). discriminate. Defined.

(** ** Configuration: what a build reads of the dict *)

Lemma popped_lookup (d : gmap string pyval) (k : string) :
  k ∈ recognized_keys → snd (read_config d) !! k = None.
Proof.
  rewrite read_config_dict. unfold recognized_keys. cbn [foldl]. intros Hk.
  repeat (apply elem_of_cons in Hk as [->|Hk]);
    [..|by apply elem_of_nil in Hk];
    repeat first [ apply lookup_delete_eq | rewrite lookup_delete_ne by discriminate ].
Qed.

Lemma build_assembly_by_options (a : BuildArgs) (d1 d2 : option (gmap string pyval)) :
  (∀ k, k ∈ recognized_keys → (d ← d1; d !! k) = (d ← d2; d !! k)) →
  snd (build_assembly (with_config a d1)) = snd (build_assembly (with_config a d2)).
Proof.
  intros H. rewrite !build_assembly_unfold, !configure_options. cbn [snd].
  unfold configured, recognized_keys in *. cbn [config with_config].
  rewrite !H by (apply list_elem_of_In; cbn; tauto). reflexivity.
Qed.

(** X6. A build reads the five recognised options only: two dicts that agree
    on them give the same assembly or the same exception, whatever else
    they hold. *)
Theorem config_other_keys_ignored (a : BuildArgs) (d1 d2 : gmap string pyval) :
  (∀ k, k ∈ recognized_keys → d1 !! k = d2 !! k) →
  snd (build_assembly (with_config a (Some d1)))
  = snd (build_assembly (with_config a (Some d2))).
Proof. intros H. apply build_assembly_by_options. exact H. Qed.

Lemma config_other_keys_ignored_witness :
  snd (build_assembly (with_config (sample_args None) (Some resolve_config)))
  = snd (build_assembly
           (with_config (sample_args None)
              (Some {[ "resolve" := PyBool true; "segments" := PyInt 3 ]}))).
Proof.
  apply (config_other_keys_ignored (sample_args None)). intros k Hk.
  unfold recognized_keys in Hk.
  repeat (apply elem_of_cons in Hk as [->|Hk]); [reflexivity..|].
  by apply elem_of_nil in Hk.
Defined.

(** X7. A dict that has been through a build has lost its options: a second
    build handed the same dict object runs on the defaults, exactly as
    with no configuration at all, and leaves the dict as it is. *)
Theorem config_dict_reused (a : BuildArgs) (d d' : gmap string pyval) :
  config a = Some d → fst (build_assembly a) = Some d' →
  snd (build_assembly (with_config a (Some d')))
  = snd (build_assembly (with_config a None))
  ∧ fst (build_assembly (with_config a (Some d'))) = Some d'.
Proof.
  intros Hd Hd'. rewrite build_assembly_unfold, Hd in Hd'. unfold configure in Hd'.
  pose proof (popped_lookup d) as Hpop.
  destruct (read_config d) as [o d0]. cbn [fst snd] in *. injection Hd' as ->.
  split.
  - apply build_assembly_by_options. intros k Hk. cbn. by apply Hpop.
  - rewrite build_assembly_unfold. cbn [fst config with_config]. unfold configure.
    pose proof (read_config_dict d') as Hdict.
    destruct (read_config d') as [o' d'']. cbn [snd] in *. subst d''. f_equal.
    unfold recognized_keys. cbn [foldl].
    rewrite !delete_id; [reflexivity|..];
      repeat (rewrite lookup_delete_ne by discriminate);
      apply Hpop, list_elem_of_In; cbn; tauto.
Qed.

Lemma config_dict_reused_witness :
  match fst (build_assembly (sample_args (Some resolve_config))) with
  | Some d' =>
      snd (build_assembly (with_config (sample_args (Some resolve_config)) (Some d')))
      = snd (build_assembly (with_config (sample_args (Some resolve_config)) None))
  | None => False
  end.
Proof.
  destruct (fst (build_assembly (sample_args (Some resolve_config)))) as [d'|] eqn:E.
  - apply (config_dict_reused (sample_args (Some resolve_config)) resolve_config d');
      [reflexivity | exact E].
  - vm_compute in E. discriminate E.
Defined.

(** ** solve: the calls it makes and the state it leaves *)

Lemma fix_cells_keeps (cs : list ((string * Z) * option Q)) (m m' : Model) :
  fix_cells cs m = Ok m' →
  (∀ k, is_Some (UnitOn m' !! k) ↔ is_Some (UnitOn m !! k))
  ∧ (∀ k var, UnitOn m !! k = Some var → fixed var = true →
       ∃ var', UnitOn m' !! k = Some var' ∧ fixed var' = true)
  ∧ parameters m' = parameters m
  ∧ EnforceUpTimeConstraintsInitial m' = EnforceUpTimeConstraintsInitial m
  ∧ EnforceUpTimeConstraintsSubsequent m' = EnforceUpTimeConstraintsSubsequent m
  ∧ EnforceDownTimeConstraintsInitial m' = EnforceDownTimeConstraintsInitial m
  ∧ EnforceDownTimeConstraintsSubsequent m' = EnforceDownTimeConstraintsSubsequent m.
Proof.
  revert m. induction cs as [|[[g t] c] cs IH]; intros m H.
  - injection H as <-. repeat split; eauto.
  - cbn [fix_cells fst snd] in H. apply bind_Ok in H as (m1 & H1 & H).
    apply fix_cell_inv in H1.
    destruct (IH m1 H) as (Hdom & Hfix & Hp & H1' & H2' & H3' & H4').
    destruct c as [v|]; [|by subst m1].
    destruct H1 as [[var0 Hvar0] ->]. cbn in *.
    split; [|split; [|by repeat split]].
    + intros k. rewrite Hdom, lookup_insert_is_Some.
      split; [intros [<-|[_ ?]]; eauto | intros ?].
      destruct (decide ((g, t) = k)); eauto.
    + intros k var Hk Hf. destruct (decide ((g, t) = k)) as [<-|Hne].
      * apply (Hfix (g, t) (fixed_at (int_of_float v))); [apply lookup_insert_eq|done].
      * apply (Hfix k var); [by rewrite lookup_insert_ne|done].
Qed.

(** X8. The fixing loops of the resolve phase touch nothing but the
    variables named by non-null cells: no variable appears or
    disappears, a variable that was fixed stays fixed, and the four
    constraint groups and the rest of the model are as before. *)
Theorem fix_commitment_keeps_variables (table : list (Z * list (string * option Q)))
    (m m' : Model) :
  fix_commitment table m = Ok m' →
  (∀ k, is_Some (UnitOn m' !! k) ↔ is_Some (UnitOn m !! k))
  ∧ (∀ k var, UnitOn m !! k = Some var → fixed var = true →
       ∃ var', UnitOn m' !! k = Some var' ∧ fixed var' = true)
  ∧ parameters m' = parameters m
  ∧ EnforceUpTimeConstraintsInitial m' = EnforceUpTimeConstraintsInitial m
  ∧ EnforceUpTimeConstraintsSubsequent m' = EnforceUpTimeConstraintsSubsequent m
  ∧ EnforceDownTimeConstraintsInitial m' = EnforceDownTimeConstraintsInitial m
  ∧ EnforceDownTimeConstraintsSubsequent m' = EnforceDownTimeConstraintsSubsequent m.
Proof. rewrite fix_commitment_cells. apply fix_cells_keeps. Qed.

Lemma fix_commitment_keeps_variables_witness :
  match fix_commitment (loose_commitment (bare_model empty_assembly))
          (bare_model empty_assembly) with
  | Ok m' =>
      (∀ k, is_Some (UnitOn m' !! k) ↔ is_Some (UnitOn (bare_model empty_assembly) !! k))
      ∧ EnforceUpTimeConstraintsInitial m' = true
  | Raise _ => False
  end.
Proof.
  destruct (fix_commitment _ _) as [m'|e] eqn:E.
  - destruct (fix_commitment_keeps_variables _ _ _ E) as (H1 & _ & _ & H2 & _).
    split; [exact H1 | exact H2].
  - vm_compute in E. discriminate E.
Defined.

Lemma fix_cells_unknown (cs : list ((string * Z) * option Q)) (m : Model)
    (k : string * Z) (v : Q) :
  (k, Some v) ∈ cs → UnitOn m !! k = None →
  fix_cells cs m = Raise (KeyError "UnitOn").
Proof.
  revert m. induction cs as [|[[g t] c] cs IH]; intros m Hin Hk.
  - by apply elem_of_nil in Hin.
  - cbn [fix_cells fst snd]. apply elem_of_cons in Hin as [[= -> <-]|Hin].
    + unfold fix_cell. cbn [fst snd]. by rewrite Hk.
    + destruct (fix_cell t m (g, c)) as [m1|e] eqn:E1.
      * cbn [mbind result_bind]. apply IH; [exact Hin|].
        apply fix_cell_inv in E1. destruct c as [v'|]; [|by subst m1].
        destruct E1 as [[var Hvar] ->]. cbn. rewrite lookup_insert_ne; [exact Hk|].
        intros <-. congruence.
      * unfold fix_cell in E1. cbn [fst snd] in E1. destruct c as [v'|]; [|discriminate].
        destruct (UnitOn m !! (g, t)); [discriminate|]. by injection E1 as <-.
Qed.

(** X9. When the result table has a non-null cell for a generator and
    period that the model has no commitment variable for, the resolve
    phase raises [KeyError] and no second solve is made. *)
Theorem resolve_unknown_variable solve_model unit_commitment (self : PSSTModel)
    (solver : string) (verbose keepfiles resolve : bool) (kwargs : gmap string pyval)
    (m1 : Model) (k : string * Z) (v : Q) :
  solve_model (_model self)
    {| solver := solver; verbose := verbose; keepfiles := keepfiles;
       is_mip := None; kwargs := kwargs |} = Ok m1 →
  resolve = true ∨ solver = "xpress" →
  (k, Some v) ∈ cells (unit_commitment m1) → UnitOn m1 !! k = None →
  solve solve_model unit_commitment self solver verbose keepfiles resolve kwargs
  = ([(_model self,
       {| solver := solver; verbose := verbose; keepfiles := keepfiles;
          is_mip := None; kwargs := kwargs |})],
     Raise (KeyError "UnitOn")).
Proof.
  intros H1 Hres Hin Hk. unfold solve. rewrite H1.
  assert ((if bool_decide (solver = "xpress") then true else resolve) = true) as ->.
  { case_bool_decide; [reflexivity|]. by destruct Hres. }
  by rewrite fix_commitment_cells, (fix_cells_unknown _ m1 k v Hin Hk).
Qed.

Lemma resolve_unknown_variable_witness :
  solve echo_solver (fun _ => [(7, [("g1", Some 1%Q)])]) sample_self
    "glpk" false false true ∅
  = ([(_model sample_self,
       {| solver := "glpk"; verbose := false; keepfiles := false;
          is_mip := None; kwargs := ∅ |})],
     Raise (KeyError "UnitOn")).
Proof.
  apply (resolve_unknown_variable echo_solver (fun _ => [(7, [("g1", Some 1%Q)])])
           sample_self "glpk" false false true ∅ (_model sample_self)
           ("g1", 7) 1%Q).
  - reflexivity.
  - by left.
  - apply list_elem_of_In. cbn. tauto.
  - reflexivity.
Defined.

(** X10. A caller who passes [is_mip] among the keyword arguments cannot get
    through the resolve phase: after the first solve and the fixing, the
    second call would receive [is_mip] twice, and [solve] raises
    [TypeError] with one solver call made. *)
Theorem resolve_rejects_is_mip solve_model unit_commitment (self : PSSTModel)
    (solver : string) (verbose keepfiles resolve : bool) (kwargs : gmap string pyval)
    (m1 m2 : Model) (v : pyval) :
  solve_model (_model self)
    {| solver := solver; verbose := verbose; keepfiles := keepfiles;
       is_mip := None; kwargs := kwargs |} = Ok m1 →
  resolve = true ∨ solver = "xpress" →
  fix_commitment (unit_commitment m1) m1 = Ok m2 →
  kwargs !! "is_mip" = Some v →
  solve solve_model unit_commitment self solver verbose keepfiles resolve kwargs
  = ([(_model self,
       {| solver := solver; verbose := verbose; keepfiles := keepfiles;
          is_mip := None; kwargs := kwargs |})],
     Raise (TypeError "got multiple values for keyword argument 'is_mip'")).
Proof.
  intros H1 Hres H2 Hkw. unfold solve. rewrite H1.
  assert ((if bool_decide (solver = "xpress") then true else resolve) = true) as ->.
  { case_bool_decide; [reflexivity|]. by destruct Hres. }
  by rewrite H2, Hkw.
Qed.

Lemma resolve_rejects_is_mip_witness :
  solve echo_solver exact_commitment sample_self "xpress" false false false
    {[ "is_mip" := PyBool true ]}
  = ([(_model sample_self,
       {| solver := "xpress"; verbose := false; keepfiles := false;
          is_mip := None; kwargs := {[ "is_mip" := PyBool true ]} |})],
     Raise (TypeError "got multiple values for keyword argument 'is_mip'")).
Proof.
  destruct (fix_commitment (exact_commitment (_model sample_self)) (_model sample_self))
    as [m2|e] eqn:E; [|vm_compute in E; discriminate E].
  apply (resolve_rejects_is_mip echo_solver exact_commitment sample_self "xpress"
           false false false {[ "is_mip" := PyBool true ]} (_model sample_self) m2
           (PyBool true)).
  - reflexivity.
  - by right.
  - exact E.
  - reflexivity.
Defined.

(** X11. [solve] calls the solver once on the model it holds, without
    [is_mip], and at most once more, with [is_mip=False] and the same
    other arguments, on a model whose four up/down-time groups are
    deactivated; it never retries: when either call raises, [solve]
    raises the same exception. *)
Theorem solve_call_protocol solve_model unit_commitment (self : PSSTModel)
    (solver : string) (verbose keepfiles resolve : bool) (kwargs : gmap string pyval) :
  let first := {| solver := solver; verbose := verbose; keepfiles := keepfiles;
                  is_mip := None; kwargs := kwargs |} in
  let second := {| solver := solver; verbose := verbose; keepfiles := keepfiles;
                   is_mip := Some false; kwargs := kwargs |} in
  let run := solve solve_model unit_commitment self solver verbose keepfiles resolve
               kwargs in
  (fst run = [(_model self, first)]
   ∨ ∃ m2, fst run = [(_model self, first); (m2, second)] ∧ up_down_time_inactive m2)
  ∧ (∀ e, solve_model (_model self) first = Raise e →
       run = ([(_model self, first)], Raise e))
  ∧ (∀ m2 e, fst run = [(_model self, first); (m2, second)] →
       solve_model m2 second = Raise e → snd run = Raise e).
Proof.
  intros first second run. subst run. unfold solve. fold first. fold second.
  destruct (solve_model (_model self) first) as [m1|e1]; cbn [fst snd].
  2:{ split; [by left|]. split; [by intros e [= ->]|]. intros m2 e [=]. }
  destruct (if bool_decide (solver = "xpress") then true else resolve); cbn [fst snd].
  2:{ split; [by left|]. split; [intros e [=]|]. intros m2 e [=]. }
  destruct (fix_commitment (unit_commitment m1) m1) as [m2|e2]; cbn [fst snd].
  2:{ split; [by left|]. split; [intros e [=]|]. intros m2 e [=]. }
  destruct (kwargs !! "is_mip"); cbn [fst snd].
  { split; [by left|]. split; [intros e [=]|]. intros m e [=]. }
  destruct (solve_model (deactivate_up_down_time m2) second) as [m3|e3] eqn:E3;
    cbn [fst snd].
  - split; [right; eexists; split; [reflexivity|by repeat split]|].
    split; [intros e [=]|]. intros m e [= <-] He. congruence.
  - split; [right; eexists; split; [reflexivity|by repeat split]|].
    split; [intros e [=]|]. intros m e [= <-] He. congruence.
Qed.

Lemma solve_success_fields solve_model unit_commitment (self self' : PSSTModel)
    (solver : string) (verbose keepfiles resolve : bool) (kwargs : gmap string pyval) :
  snd (solve solve_model unit_commitment self solver verbose keepfiles resolve kwargs)
  = Ok self' →
  _status self' = Some "solved"
  ∧ results self' = Some PSSTResults
  ∧ _case self' = _case self
  ∧ _is_solved self' = _is_solved self
  ∧ ∃ m args,
      last (fst (solve solve_model unit_commitment self solver verbose keepfiles
                   resolve kwargs)) = Some (m, args)
      ∧ solve_model m args = Ok (_model self').
Proof.
  unfold solve.
  destruct (solve_model (_model self) _) as [m1|e1] eqn:E1; [|discriminate].
  destruct (if bool_decide (solver = "xpress") then true else resolve).
  2:{ intros [= <-]. repeat split. eexists _, _. split; [reflexivity|exact E1]. }
  destruct (fix_commitment (unit_commitment m1) m1) as [m2|e2]; [|discriminate].
  destruct (kwargs !! "is_mip"); [discriminate|].
  destruct (solve_model (deactivate_up_down_time m2) _) as [m3|e3] eqn:E3;
    [|discriminate].
  intros [= <-]. repeat split. eexists _, _. split; [reflexivity|exact E3].
Qed.

(** X12. A [solve] that returns leaves the status [solved] and a results
    object, holds the model of its last solver call, and keeps the case;
    the [_is_solved] flag is not written and stays as it was. *)
Theorem solve_success_state solve_model unit_commitment (self self' : PSSTModel)
    (solver : string) (verbose keepfiles resolve : bool) (kwargs : gmap string pyval) :
  snd (solve solve_model unit_commitment self solver verbose keepfiles resolve kwargs)
  = Ok self' →
  _status self' = Some "solved"
  ∧ results self' = Some PSSTResults
  ∧ _case self' = _case self
  ∧ _is_solved self' = _is_solved self
  ∧ ∃ m args,
      last (fst (solve solve_model unit_commitment self solver verbose keepfiles
                   resolve kwargs)) = Some (m, args)
      ∧ solve_model m args = Ok (_model self').
Proof. apply solve_success_fields. Qed.

Lemma solve_success_state_witness :
  match snd (solve echo_solver exact_commitment sample_self "glpk" false false true ∅)
  with
  | Ok self' => _status self' = Some "solved" ∧ _is_solved self' = false
  | Raise _ => False
  end.
Proof.
  destruct (snd (solve echo_solver exact_commitment sample_self "glpk" false false
                   true ∅)) as [self'|e] eqn:E.
  - destruct (solve_success_state _ _ _ _ _ _ _ _ _ E) as (H1 & _ & _ & H4 & _).
    split; [exact H1 | exact H4].
  - vm_compute in E. discriminate E.
Defined.

(** X13. The printed form follows the status: the object a build returns
    prints with [status=None] and has no results; after any [solve] that
    returns it prints with [status=solved] and has results. *)
Theorem repr_tracks_status solve_model unit_commitment assemble (a : BuildArgs)
    (self : PSSTModel) :
  snd (build_model assemble a) = Ok self →
  repr self = "<psst.model.PSSTModel(status=None)>"
  ∧ results self = None
  ∧ ∀ solver verbose keepfiles resolve kwargs self',
      snd (solve solve_model unit_commitment self solver verbose keepfiles resolve
             kwargs) = Ok self' →
      repr self' = "<psst.model.PSSTModel(status=solved)>"
      ∧ results self' = Some PSSTResults.
Proof.
  intros H. rewrite build_model_result in H. apply fmap_Ok in H as (asm & _ & ->).
  split; [reflexivity|]. split; [reflexivity|].
  intros solver verbose keepfiles resolve kwargs self' Hs.
  apply solve_success_fields in Hs as (Hst & Hres & _).
  split; [|exact Hres]. unfold repr. by rewrite Hst.
Qed.

Lemma repr_tracks_status_witness :
  match snd (build_model bare_model (sample_args None)) with
  | Ok self => repr self = "<psst.model.PSSTModel(status=None)>"
  | Raise _ => False
  end.
Proof.
  destruct (snd (build_model bare_model (sample_args None))) as [self|e] eqn:E.
  - apply (repr_tracks_status echo_solver exact_commitment bare_model
             (sample_args None) self E).
  - vm_compute in E. discriminate E.
Defined.

(** ** Lines at a bus, generators at a bus *)

Lemma empty_lists_from (keys : list string) (acc : gmap string (list string))
    (b : string) :
  foldl (fun d b => <[b := []]> d) acc keys !! b
  = if decide (b ∈ keys) then Some [] else acc !! b.
Proof.
  revert acc. induction keys as [|k keys IH]; intros acc; cbn [foldl].
  - by rewrite decide_False by apply not_elem_of_nil.
  - rewrite IH. destruct (decide (b ∈ keys)) as [Hin|Hin].
    + by rewrite decide_True by (by apply elem_of_cons; right).
    + destruct (decide (b = k)) as [->|Hne].
      * rewrite decide_True by (by apply elem_of_cons; left). apply lookup_insert_eq.
      * rewrite decide_False by (intros [?|?]%elem_of_cons; done).
        by apply lookup_insert_ne.
Qed.

Lemma empty_lists_lookup (keys : list string) (b : string) :
  empty_lists keys !! b = if decide (b ∈ keys) then Some [] else None.
Proof. unfold empty_lists. by rewrite empty_lists_from, lookup_empty. Qed.

Lemma dict_append_Ok (k i : string) (d d' : gmap string (list string)) :
  dict_append k i d = Ok d' →
  ∃ l, d !! k = Some l ∧ d' = <[k := l ++ [i]]> d.
Proof.
  unfold dict_append. destruct (d !! k) as [l|]; [|discriminate].
  intros [= <-]. eauto.
Qed.

Lemma dict_append_known (k i : string) (d : gmap string (list string))
    (l : list string) :
  d !! k = Some l → dict_append k i d = Ok (<[k := l ++ [i]]> d).
Proof. intros H. unfold dict_append. by rewrite H. Qed.

Lemma dict_append_unknown (k i : string) (d : gmap string (list string)) :
  d !! k = None → dict_append k i d = Raise (KeyError k).
Proof. intros H. unfold dict_append. by rewrite H. Qed.

Lemma dict_append_lookup (k i : string) (d d' : gmap string (list string))
    (b : string) :
  dict_append k i d = Ok d' →
  d' !! b = (fun l => if decide (k = b) then l ++ [i] else l) <$> d !! b.
Proof.
  intros (l & Hl & ->)%dict_append_Ok. destruct (decide (k = b)) as [<-|Hne].
  - by rewrite lookup_insert_eq, Hl.
  - rewrite lookup_insert_ne by done. by destruct (d !! b).
Qed.

Lemma incidence_lookup (branches : list Branch)
    (lf lt lf' lt' : gmap string (list string)) (b : string) :
  incidence branches lf lt = Ok (lf', lt') →
  lf' !! b = (fun l => l ++ (br_name <$> filter (fun l => F_BUS l = b) branches))
               <$> lf !! b
  ∧ lt' !! b = (fun l => l ++ (br_name <$> filter (fun l => T_BUS l = b) branches))
                 <$> lt !! b.
Proof.
  revert lf lt. induction branches as [|l branches IH]; intros lf lt H.
  - injection H as <- <-. split.
    + destruct (lf !! b); cbn; by rewrite ?app_nil_r.
    + destruct (lt !! b); cbn; by rewrite ?app_nil_r.
  - cbn [incidence] in H. apply bind_Ok in H as (lf1 & Hf & H).
    apply bind_Ok in H as (lt1 & Ht & H). destruct (IH _ _ H) as [-> ->].
    rewrite (dict_append_lookup _ _ _ _ b Hf), (dict_append_lookup _ _ _ _ b Ht).
    rewrite !(filter_cons _ l). split.
    + destruct (lf !! b) as [x|]; [cbn|done].
      destruct (decide (F_BUS l = b)); [|done]. by rewrite <- app_assoc.
    + destruct (lt !! b) as [x|]; [cbn|done].
      destruct (decide (T_BUS l = b)); [|done]. by rewrite <- app_assoc.
Qed.

Lemma incidence_total (branches : list Branch) (lf lt : gmap string (list string)) :
  (∀ l, l ∈ branches → is_Some (lf !! F_BUS l) ∧ is_Some (lt !! T_BUS l)) →
  ∃ r, incidence branches lf lt = Ok r.
Proof.
  revert lf lt. induction branches as [|l branches IH]; intros lf lt H; [by eexists|].
  cbn [incidence]. destruct (H l) as [[xf Hf] [xt Ht]]; [by apply elem_of_cons; left|].
  rewrite (dict_append_known _ _ _ _ Hf). cbn [mbind result_bind].
  rewrite (dict_append_known _ _ _ _ Ht). cbn [mbind result_bind].
  apply IH. intros l' Hl'. destruct (H l') as [Hf' Ht']; [by apply elem_of_cons; right|].
  split; apply lookup_insert_is_Some'; by right.
Qed.

(** X14. When every branch joins two buses of the bus frame, each bus gets
    the labels of the branches leaving it and of the branches entering
    it, in row order (an empty list for a bus without branches), and
    nothing else gets a key. *)
Theorem derive_lines_known (bus_index : list string) (branch_df : list Branch) :
  (∀ l, l ∈ branch_df → F_BUS l ∈ bus_index ∧ T_BUS l ∈ bus_index) →
  ∃ lines_from lines_to,
    derive_lines bus_index branch_df = Ok (lines_from, lines_to)
    ∧ ∀ b,
        lines_from !! b
        = (if decide (b ∈ bus_index)
           then Some (br_name <$> filter (fun l => F_BUS l = b) branch_df) else None)
        ∧ lines_to !! b
          = (if decide (b ∈ bus_index)
             then Some (br_name <$> filter (fun l => T_BUS l = b) branch_df) else None).
Proof.
  intros Hknown. unfold derive_lines.
  destruct (incidence_total branch_df (empty_lists bus_index) (empty_lists bus_index))
    as [[lf lt] Hr].
  { intros l Hl. destruct (Hknown l Hl) as [Hf Ht].
    rewrite !empty_lists_lookup, !decide_True by done. eauto. }
  exists lf, lt. split; [exact Hr|]. intros b.
  destruct (incidence_lookup _ _ _ _ _ b Hr) as [-> ->].
  rewrite empty_lists_lookup. by destruct (decide (b ∈ bus_index)).
Qed.

Lemma derive_lines_known_witness :
  ∃ lines_from lines_to,
    derive_lines ["b1"; "b2"; "b3"]
      [{| br_name := "l1"; F_BUS := "b1"; T_BUS := "b2" |};
       {| br_name := "l2"; F_BUS := "b1"; T_BUS := "b3" |}]
    = Ok (lines_from, lines_to)
    ∧ lines_from !! "b1" = Some ["l1"; "l2"]
    ∧ lines_to !! "b1" = Some [].
Proof.
  destruct (derive_lines_known ["b1"; "b2"; "b3"]
              [{| br_name := "l1"; F_BUS := "b1"; T_BUS := "b2" |};
               {| br_name := "l2"; F_BUS := "b1"; T_BUS := "b3" |}])
    as (lf & lt & Hr & Hl).
  { intros l Hl. apply list_elem_of_In in Hl. cbn in Hl.
    destruct Hl as [<-|[<-|[]]]; split; apply list_elem_of_In; cbn; tauto. }
  exists lf, lt. split; [exact Hr|]. destruct (Hl "b1") as [-> ->]. by split.
Defined.

(** X15. The first branch that names a bus missing from the bus frame stops
    the build with a [KeyError] on that bus, the from-bus being looked up
    before the to-bus. *)
Theorem derive_lines_unknown_bus (bus_index : list string)
    (pre post : list Branch) (l : Branch) :
  (∀ l', l' ∈ pre → F_BUS l' ∈ bus_index ∧ T_BUS l' ∈ bus_index) →
  (F_BUS l ∉ bus_index →
     derive_lines bus_index (pre ++ l :: post) = Raise (KeyError (F_BUS l)))
  ∧ (F_BUS l ∈ bus_index → T_BUS l ∉ bus_index →
     derive_lines bus_index (pre ++ l :: post) = Raise (KeyError (T_BUS l))).
Proof.
  intros Hpre. unfold derive_lines.
  assert (Hgen : ∀ lf lt,
            (∀ b, is_Some (lf !! b) ↔ b ∈ bus_index) →
            (∀ b, is_Some (lt !! b) ↔ b ∈ bus_index) →
            (F_BUS l ∉ bus_index →
               incidence (pre ++ l :: post) lf lt = Raise (KeyError (F_BUS l)))
            ∧ (F_BUS l ∈ bus_index → T_BUS l ∉ bus_index →
               incidence (pre ++ l :: post) lf lt = Raise (KeyError (T_BUS l)))).
  { induction pre as [|p pre IH]; intros lf lt Hlf Hlt.
    - cbn [app incidence]. split.
      + intros Hf.
        assert (lf !! F_BUS l = None) as E.
        { destruct (lf !! F_BUS l) eqn:E; [|reflexivity].
          exfalso. apply Hf, Hlf. eauto. }
        by rewrite (dict_append_unknown _ (br_name l) _ E).
      + intros Hf Ht. apply Hlf in Hf as [x Hx].
        rewrite (dict_append_known _ _ _ _ Hx). cbn [mbind result_bind].
        assert (lt !! T_BUS l = None) as E.
        { destruct (lt !! T_BUS l) eqn:E; [|reflexivity].
          exfalso. apply Ht, Hlt. eauto. }
        by rewrite (dict_append_unknown _ (br_name l) _ E).
    - cbn [app incidence].
      destruct (Hpre p) as [Hpf Hpt]; [by apply elem_of_cons; left|].
      apply Hlf in Hpf as [xf Hxf]. apply Hlt in Hpt as [xt Hxt].
      rewrite (dict_append_known _ _ _ _ Hxf). cbn [mbind result_bind].
      rewrite (dict_append_known _ _ _ _ Hxt). cbn [mbind result_bind].
      apply IH.
      + intros l' Hl'. apply Hpre. by apply elem_of_cons; right.
      + intros b. rewrite lookup_insert_is_Some, <- Hlf.
        destruct (decide (F_BUS p = b)) as [<-|]; [|tauto].
        split; [eauto | by left].
      + intros b. rewrite lookup_insert_is_Some, <- Hlt.
        destruct (decide (T_BUS p = b)) as [<-|]; [|tauto].
        split; [eauto | by left]. }
  apply Hgen; intros b; rewrite empty_lists_lookup;
    destruct (decide (b ∈ bus_index)) as [Hin|Hin]; split; intros H;
    [exact Hin | by eexists | by destruct H | done
    |exact Hin | by eexists | by destruct H | done].
Qed.

Lemma derive_lines_unknown_bus_witness :
  derive_lines ["b1"; "b2"]
    ([{| br_name := "l1"; F_BUS := "b1"; T_BUS := "b2" |}]
     ++ {| br_name := "l2"; F_BUS := "b2"; T_BUS := "b9" |} :: [])
  = Raise (KeyError "b9").
Proof.
  apply (derive_lines_unknown_bus ["b1"; "b2"]
           [{| br_name := "l1"; F_BUS := "b1"; T_BUS := "b2" |}] []
           {| br_name := "l2"; F_BUS := "b2"; T_BUS := "b9" |}).
  - intros l Hl. apply list_elem_of_In in Hl. cbn in Hl.
    destruct Hl as [<-|[]]; split; apply list_elem_of_In; cbn; tauto.
  - apply list_elem_of_In; cbn; tauto.
  - intros Hin. apply list_elem_of_In in Hin. cbn in Hin.
    destruct Hin as [[=]|[[=]|[]]].
Defined.

Lemma at_bus_lookup (rows : list (string * string)) (d d' : gmap string (list string))
    (b : string) :
  at_bus rows d = Ok d' →
  d' !! b = (fun l => l ++ (fst <$> filter (fun r => snd r = b) rows)) <$> d !! b.
Proof.
  revert d. induction rows as [|[i bus] rows IH]; intros d H.
  - injection H as <-. destruct (d !! b); cbn; by rewrite ?app_nil_r.
  - cbn [at_bus] in H. apply bind_Ok in H as (d1 & H1 & H).
    rewrite (IH _ H), (dict_append_lookup _ _ _ _ b H1), (filter_cons _ (i, bus)).
    destruct (d !! b) as [x|]; [cbn|done].
    destruct (decide (bus = b)); [|done]. by rewrite <- app_assoc.
Qed.

Lemma at_bus_total (rows : list (string * string)) (d : gmap string (list string)) :
  (∀ r, r ∈ rows → is_Some (d !! snd r)) → ∃ d', at_bus rows d = Ok d'.
Proof.
  revert d. induction rows as [|[i bus] rows IH]; intros d H; [by eexists|].
  cbn [at_bus]. destruct (H (i, bus)) as [x Hx]; [by apply elem_of_cons; left|].
  cbn in Hx. rewrite (dict_append_known _ _ _ _ Hx). cbn [mbind result_bind].
  apply IH. intros r Hr. apply lookup_insert_is_Some'. right.
  apply H. by apply elem_of_cons; right.
Qed.

(** X16. Grouping the generators by bus never fails: each bus that some
    generator sits at gets the labels of its generators in row order, and
    a bus without generators gets no key at all. *)
Theorem generator_at_bus_groups (gen_bus : list (string * string)) :
  ∃ d, generator_at_bus gen_bus = Ok d
     ∧ ∀ b, d !! b
            = if decide (b ∈ gen_bus.*2)
              then Some (fst <$> filter (fun r => snd r = b) gen_bus) else None.
Proof.
  unfold generator_at_bus.
  destruct (at_bus_total gen_bus (empty_lists gen_bus.*2)) as [d Hd].
  { intros r Hr. rewrite empty_lists_lookup, decide_True; [eauto|].
    apply list_elem_of_fmap. by exists r. }
  exists d. split; [exact Hd|]. intros b.
  rewrite (at_bus_lookup _ _ _ b Hd), empty_lists_lookup.
  by destruct (decide (b ∈ gen_bus.*2)).
Qed.

(** ** Time series dicts *)

Lemma row_cells_other (d : gmap (string * Z) Q) (i i' : Z) (col : string)
    (cols : list string) (cells : list Q) :
  i' ≠ i ∨ col ∉ cols →
  foldl (fun d cv => <[(fst cv, i) := snd cv]> d) d (zip cols cells) !! (col, i')
  = d !! (col, i').
Proof.
  intros H. revert d cells. induction cols as [|c cols IH]; intros d [|x cells];
    try reflexivity.
  cbn [zip_with foldl fst snd]. rewrite IH.
  - apply lookup_insert_ne. intros [= -> ->]. destruct H as [H|H]; [done|].
    apply H. by apply elem_of_cons; left.
  - destruct H as [H|H]; [by left|]. right. intros Hin. apply H.
    by apply elem_of_cons; right.
Qed.

Lemma row_cells_lookup (d : gmap (string * Z) Q) (i : Z) (col : string)
    (cols : list string) (cells : list Q) (j : nat) (v : Q) :
  NoDup cols → cols !! j = Some col → cells !! j = Some v →
  foldl (fun d cv => <[(fst cv, i) := snd cv]> d) d (zip cols cells) !! (col, i)
  = Some v.
Proof.
  intros Hnd. revert d cells j. induction Hnd as [|c cols Hfresh Hnd IH];
    intros d [|x cells] [|j] Hc Hv; try discriminate.
  - cbn in Hc, Hv. injection Hc as ->. injection Hv as ->.
    cbn [zip_with foldl fst snd]. rewrite row_cells_other by (by right).
    apply lookup_insert_eq.
  - cbn [zip_with foldl]. by apply (IH _ _ j).
Qed.

Local Abbreviation put_row cols :=
  (fun (d : gmap (string * Z) Q) (row : Z * list Q) =>
     foldl (fun d cv => <[(fst cv, fst row) := snd cv]> d) d (zip cols (snd row))).

Lemma rows_other (cols : list string) (rows : list (Z * list Q))
    (d : gmap (string * Z) Q) (i : Z) (col : string) :
  i ∉ rows.*1 ∨ col ∉ cols →
  foldl (put_row cols) d rows !! (col, i) = d !! (col, i).
Proof.
  intros H. revert d. induction rows as [|[i' cells'] rows IH]; intros d;
    [reflexivity|].
  cbn [foldl fst snd]. rewrite IH.
  - apply row_cells_other. destruct H as [H|H]; [left|by right].
    intros ->. apply H. cbn. by apply elem_of_cons; left.
  - destruct H as [H|H]; [left|by right].
    intros Hin. apply H. cbn. by apply elem_of_cons; right.
Qed.

Lemma rows_lookup (cols : list string) (rows : list (Z * list Q))
    (d : gmap (string * Z) Q) (i : Z) (cells : list Q) (j : nat) (col : string)
    (v : Q) :
  NoDup cols → NoDup rows.*1 → (i, cells) ∈ rows →
  cols !! j = Some col → cells !! j = Some v →
  foldl (put_row cols) d rows !! (col, i) = Some v.
Proof.
  intros Hcols Hrows Hin Hc Hv. revert d.
  induction rows as [|[i' cells'] rows IH]; intros d; [by apply elem_of_nil in Hin|].
  cbn in Hrows. apply NoDup_cons in Hrows as [Hfresh Hrows]. cbn [foldl fst snd].
  apply elem_of_cons in Hin as [[= <- <-]|Hin].
  - rewrite rows_other by (by left). by apply (row_cells_lookup _ _ _ _ _ j).
  - by apply IH.
Qed.

(** X17. The dict built from a forecast or load frame holds, under the key
    (column, row label), the cell of that row in that column; a row label
    or a column that the frame does not have has no key.  Row labels and
    column names are distinct. *)
Theorem cell_dict_lookup (f : RowFrame) :
  NoDup (rf_columns f) → NoDup (rf_rows f).*1 →
  (∀ i cells j col v,
     (i, cells) ∈ rf_rows f → rf_columns f !! j = Some col → cells !! j = Some v →
     cell_dict f !! (col, i) = Some v)
  ∧ (∀ i col, i ∉ (rf_rows f).*1 ∨ col ∉ rf_columns f →
       cell_dict f !! (col, i) = None).
Proof.
  intros Hcols Hrows. unfold cell_dict. split.
  - intros i cells j col v Hin Hc Hv. by apply (rows_lookup _ _ _ i cells j).
  - intros i col H. by rewrite rows_other, lookup_empty.
Qed.

Lemma cell_dict_lookup_witness :
  cell_dict {| rf_columns := ["w1"; "w2"];
               rf_rows := [(0, [3%Q; 4%Q]); (1, [5%Q; 6%Q])] |} !! ("w2", 1)
  = Some 6%Q.
Proof.
  destruct (cell_dict_lookup {| rf_columns := ["w1"; "w2"];
                                rf_rows := [(0, [3%Q; 4%Q]); (1, [5%Q; 6%Q])] |})
    as [H _]; [by apply (bool_decide_unpack _)..|].
  apply (H 1 [5%Q; 6%Q] 1%nat "w2" 6%Q); [|reflexivity..].
  apply list_elem_of_In. cbn. tauto.
Defined.

(** ** Cost curves: failures and what is read *)

Lemma cost_curves_first_failure (segs : pyval) (pre post : list Generator)
    (g : Generator) (acc : Curves) (e : exn) :
  (∀ g', g' ∈ pre → ∃ c, cost_curve segs g' = Ok c) →
  cost_curve segs g = Raise e →
  cost_curves segs (pre ++ g :: post) acc = Raise e.
Proof.
  intros Hpre Hg. revert acc. induction pre as [|p pre IH]; intros acc.
  - cbn [app cost_curves]. by rewrite Hg.
  - cbn [app cost_curves]. destruct (Hpre p) as [c ->]; [by apply elem_of_cons; left|].
    cbn [mbind result_bind]. apply IH. intros g' Hg'. apply Hpre.
    by apply elem_of_cons; right.
Qed.

Lemma validated_curves_first_failure (segs : pyval) (pre post : list Generator)
    (g : Generator) (e : exn) :
  (∀ g', g' ∈ pre → ∃ c, cost_curve segs g' = Ok c) →
  cost_curve segs g = Raise e →
  validated_curves segs (pre ++ g :: post) = Raise e.
Proof.
  intros Hpre Hg. unfold validated_curves.
  by rewrite (cost_curves_first_failure segs pre post g _ e Hpre Hg).
Qed.

(** X18. A polynomial cost with a number of coefficients other than 2 or 3
    stops the curve stage, at the first such generator, with a
    [NotImplementedError] that gives the number and not the generator. *)
Theorem unsupported_polynomial (segs : pyval) (pre post : list Generator)
    (g : Generator) :
  (∀ g', g' ∈ pre → ∃ c, cost_curve segs g' = Ok c) →
  MODEL g = 2 → NCOST g ≠ 2 → NCOST g ≠ 3 →
  validated_curves segs (pre ++ g :: post)
  = Raise (NotImplementedError
             (Format "Unable to build cost function for ncost={ncost}"
                     [("ncost", FInt (NCOST g))])).
Proof.
  intros Hpre HM H2 H3. apply validated_curves_first_failure; [exact Hpre|].
  unfold cost_curve, polynomial_curve. rewrite HM. change (2 =? 2) with true. cbv iota.
  destruct (NCOST g =? 2) eqn:E2; [lia|]. destruct (NCOST g =? 3) eqn:E3; [lia|].
  reflexivity.
Qed.

Lemma unsupported_polynomial_witness :
  validated_curves (PyInt 2)
    ([unit_g1] ++ {| gen_name := "g4"; PMIN := 0; PMAX := 9; MODEL := 2; NCOST := 4;
                     COST := [1%Q; 1%Q; 1%Q; 1%Q]; STARTUP := 0; SHUTDOWN := 0 |}
               :: [unit_g2])
  = Raise (NotImplementedError
             (Format "Unable to build cost function for ncost={ncost}"
                     [("ncost", FInt 4)])).
Proof.
  apply (unsupported_polynomial (PyInt 2) [unit_g1] [unit_g2]
           {| gen_name := "g4"; PMIN := 0; PMAX := 9; MODEL := 2; NCOST := 4;
              COST := [1%Q; 1%Q; 1%Q; 1%Q]; STARTUP := 0; SHUTDOWN := 0 |});
    [|reflexivity|discriminate|discriminate].
  intros g' Hg'. apply list_elem_of_singleton in Hg' as ->. by eexists.
Defined.

Lemma mapM_first_failure {A B} (f : A -> result B) (l1 l2 : list A) (x : A) (e : exn) :
  (∀ y, y ∈ l1 → ∃ b, f y = Ok b) → f x = Raise e →
  mapM f (l1 ++ x :: l2) = Raise e.
Proof.
  intros H1 Hx. induction l1 as [|y l1 IH]; cbn.
  - by rewrite Hx.
  - destruct (H1 y) as [b ->]; [by apply elem_of_cons; left|]. cbn.
    rewrite IH; [reflexivity|]. intros z Hz. apply H1. by apply elem_of_cons; right.
Qed.

(** X19. A piecewise cost with NCOST declared pairs is read straight from the
    cost columns: breakpoint n has power [COST_2n] and cost [COST_2n+1].
    NCOST may be 0 here; the length check comes later. *)
Theorem piecewise_reads_pairs (segs : pyval) (g : Generator) :
  MODEL g = 1 → NCOST g ≠ 1 → 0 ≤ NCOST g →
  2 * NCOST g ≤ Z.of_nat (length (COST g)) →
  ∃ p v, cost_curve segs g = Ok (Some (p, v))
       ∧ length p = Z.to_nat (NCOST g) ∧ length v = Z.to_nat (NCOST g)
       ∧ ∀ n, (n < Z.to_nat (NCOST g))%nat →
              p !! n = COST g !! (2 * n)%nat ∧ v !! n = COST g !! (2 * n + 1)%nat.
Proof.
  intros HM H1 H0 Hlen. unfold cost_curve, piecewise_curve. rewrite HM.
  change (1 =? 2) with false. change (1 =? 1) with true. cbv iota.
  destruct (NCOST g =? 1) eqn:E1; [lia|]. destruct (NCOST g <? 0) eqn:E0; [lia|].
  set (N := Z.to_nat (NCOST g)).
  set (pair_of := fun n : nat =>
         (default 0%Q (COST g !! (2 * n)%nat), default 0%Q (COST g !! (2 * n + 1)%nat))).
  assert (Hcell : ∀ n, (n < N)%nat →
            COST g !! (2 * n)%nat = Some (default 0%Q (COST g !! (2 * n)%nat))
            ∧ COST g !! (2 * n + 1)%nat
              = Some (default 0%Q (COST g !! (2 * n + 1)%nat))).
  { intros n Hn. unfold N in *.
    destruct (lookup_lt_is_Some_2 (COST g) (2 * n)%nat) as [p ->]; [lia|].
    destruct (lookup_lt_is_Some_2 (COST g) (2 * n + 1)%nat) as [v ->]; [lia|]. done. }
  assert (Hpv : mapM (declared_pair g) (seq 0 N) = Ok (pair_of <$> seq 0 N)).
  { apply mapM_Ok, Forall2_fmap_r, Forall_Forall2_diag, Forall_forall.
    intros n Hn. apply elem_of_seq in Hn.
    destruct (Hcell n) as [Hp Hv]; [lia|]. unfold pair_of.
    by apply declared_pair_Ok. }
  rewrite Hpv. eexists _, _. split; [reflexivity|].
  rewrite !length_fmap, length_seq. split; [done|]. split; [done|].
  intros n Hn. destruct (Hcell n Hn) as [Hp Hv].
  rewrite !list_lookup_fmap, lookup_seq_lt by done. change (0 + n)%nat with n.
  unfold pair_of. cbn [fmap option_fmap option_map fst snd]. by split.
Qed.

Lemma piecewise_reads_pairs_witness :
  ∃ p v,
    cost_curve (PyInt 2)
      {| gen_name := "g5"; PMIN := 0; PMAX := 9; MODEL := 1; NCOST := 2;
         COST := [0%Q; 1%Q; 9%Q; 7%Q]; STARTUP := 0; SHUTDOWN := 0 |}
    = Ok (Some (p, v))
    ∧ p !! 1%nat = Some 9%Q ∧ v !! 1%nat = Some 7%Q.
Proof.
  destruct (piecewise_reads_pairs (PyInt 2)
              {| gen_name := "g5"; PMIN := 0; PMAX := 9; MODEL := 1; NCOST := 2;
                 COST := [0%Q; 1%Q; 9%Q; 7%Q]; STARTUP := 0; SHUTDOWN := 0 |})
    as (p & v & Hc & _ & _ & Hn); [reflexivity|discriminate|discriminate|cbn; lia|].
  exists p, v. split; [exact Hc|]. apply (Hn 1%nat). cbn. lia.
Defined.

(** X20. A piecewise cost that declares more pairs than it has cost columns
    raises [KeyError] on the first missing column it reads, which is the
    odd one of the first incomplete pair (the cost is read before the
    power). *)
Theorem piecewise_missing_column (segs : pyval) (g : Generator) :
  MODEL g = 1 → NCOST g ≠ 1 →
  Z.of_nat (length (COST g)) < 2 * NCOST g →
  cost_curve segs g
  = Raise (KeyError ("COST_" +:+ pretty (N.of_nat (2 * (length (COST g) / 2) + 1)))).
Proof.
  intros HM H1 Hlen. unfold cost_curve, piecewise_curve. rewrite HM.
  change (1 =? 2) with false. change (1 =? 1) with true. cbv iota.
  destruct (NCOST g =? 1) eqn:E1; [lia|]. destruct (NCOST g <? 0) eqn:E0; [lia|].
  set (n0 := (length (COST g) / 2)%nat).
  assert (Hn0 : (2 * n0 ≤ length (COST g) < 2 * n0 + 2)%nat).
  { unfold n0. pose proof (Nat.div_mod_eq (length (COST g)) 2).
    pose proof (Nat.mod_upper_bound (length (COST g)) 2). lia. }
  assert (∃ r, Z.to_nat (NCOST g) = (n0 + S r)%nat) as [r ->]
    by (exists (Z.to_nat (NCOST g) - S n0)%nat; lia).
  rewrite seq_app. cbn [seq Nat.add].
  rewrite (mapM_first_failure (declared_pair g) _ _ n0
             (KeyError ("COST_" +:+ pretty (N.of_nat (2 * n0 + 1))))); [reflexivity|..].
  - intros n Hn. apply elem_of_seq in Hn.
    destruct (lookup_lt_is_Some_2 (COST g) (2 * n)%nat) as [p Hp]; [lia|].
    destruct (lookup_lt_is_Some_2 (COST g) (2 * n + 1)%nat) as [v Hv]; [lia|].
    exists (p, v). by apply declared_pair_Ok.
  - unfold declared_pair, cost_cell.
    rewrite (lookup_ge_None_2 (COST g) (2 * n0 + 1)) by lia. reflexivity.
Qed.

Lemma piecewise_missing_column_witness :
  cost_curve (PyInt 2)
    {| gen_name := "g6"; PMIN := 0; PMAX := 9; MODEL := 1; NCOST := 3;
       COST := [0%Q; 1%Q; 9%Q; 7%Q]; STARTUP := 0; SHUTDOWN := 0 |}
  = Raise (KeyError "COST_5").
Proof.
  apply (piecewise_missing_column (PyInt 2)
           {| gen_name := "g6"; PMIN := 0; PMAX := 9; MODEL := 1; NCOST := 3;
              COST := [0%Q; 1%Q; 9%Q; 7%Q]; STARTUP := 0; SHUTDOWN := 0 |});
    [reflexivity|discriminate|cbn; lia].
Defined.

Lemma linspace_lookup (start stop : Q) (num i : nat) :
  (2 ≤ num)%nat → (i < num)%nat →
  ∃ x, linspace start stop num !! i = Some x
     ∧ (x == start + inject_Z (Z.of_nat i)
                     * ((stop - start) / inject_Z (Z.of_nat (num - 1))))%Q.
Proof.
  intros Hnum Hi. destruct num as [|[|n]]; [lia..|].
  unfold linspace. replace (S (S n) - 1)%nat with (S n) by lia.
  destruct (decide (i < S n)%nat) as [Hlt|Hge].
  - rewrite lookup_app_l by (by rewrite length_fmap, length_seq).
    rewrite list_lookup_fmap, lookup_seq_lt by done. cbn [fmap option_fmap option_map].
    change (0 + i)%nat with i. eexists. split; [reflexivity|]. ring.
  - assert (i = S n) as -> by lia.
    rewrite lookup_app_r by (rewrite length_fmap, length_seq; lia).
    rewrite length_fmap, length_seq, Nat.sub_diag. cbn [lookup list_lookup].
    eexists. split; [reflexivity|]. field.
    replace 0%Q with (inject_Z 0) by reflexivity. rewrite inject_Z_injective. lia.
Qed.

(** X21. A quadratic cost is sampled at [segments] equally spaced powers from
    [PMIN] to [PMAX], the cost at each being the quadratic at that power.
    Unlike the linear case nothing is perturbed when [PMIN] equals
    [PMAX]: every breakpoint is then at [PMIN]. *)
Theorem quadratic_breakpoints (g : Generator) (n : Z) (c0 c1 c2 : Q) :
  MODEL g = 2 → NCOST g = 3 → 2 ≤ n →
  COST g !! 0%nat = Some c0 → COST g !! 1%nat = Some c1 → COST g !! 2%nat = Some c2 →
  ∃ p v, cost_curve (PyInt n) g = Ok (Some (p, v))
       ∧ length p = Z.to_nat n
       ∧ (∀ i, (i < Z.to_nat n)%nat →
            ∃ x, p !! i = Some x
               ∧ v !! i = Some (c0 + c1 * x + c2 * x ^ 2)%Q
               ∧ (x == PMIN g + inject_Z (Z.of_nat i)
                                * ((PMAX g - PMIN g) / inject_Z (n - 1)))%Q)
       ∧ ((PMIN g == PMAX g)%Q → Forall (fun x => (x == PMIN g)%Q) p).
Proof.
  intros HM HN Hn H0 H1 H2.
  assert (Hnum : as_num (PyInt n) = Ok (Z.to_nat n)).
  { cbn. destruct (n <? 0) eqn:E; [lia|reflexivity]. }
  rewrite (cost_curve_quadratic _ g _ c0 c1 c2 HM HN Hnum H0 H1 H2). cbv zeta.
  eexists _, _. split; [reflexivity|]. split; [apply linspace_length|].
  assert (Hsp : ∀ i, (i < Z.to_nat n)%nat →
            ∃ x, linspace (PMIN g) (PMAX g) (Z.to_nat n) !! i = Some x
               ∧ (x == PMIN g + inject_Z (Z.of_nat i)
                                * ((PMAX g - PMIN g) / inject_Z (n - 1)))%Q).
  { intros i Hi.
    destruct (linspace_lookup (PMIN g) (PMAX g) (Z.to_nat n) i) as (x & Hx & Hxe);
      [lia|done|].
    exists x. split; [exact Hx|]. rewrite Hxe.
    replace (Z.of_nat (Z.to_nat n - 1)) with (n - 1) by lia. reflexivity. }
  split.
  - intros i Hi. destruct (Hsp i Hi) as (x & Hx & Hxe). exists x.
    split; [exact Hx|]. split; [|exact Hxe]. by rewrite list_lookup_fmap, Hx.
  - intros Heq. apply Forall_lookup. intros i x Hx.
    assert (Hi : (i < Z.to_nat n)%nat).
    { apply lookup_lt_Some in Hx. by rewrite linspace_length in Hx. }
    destruct (Hsp i Hi) as (x' & Hx' & Hxe). rewrite Hx in Hx'. injection Hx' as <-.
    rewrite Hxe, <- Heq. field.
    replace 0%Q with (inject_Z 0) by reflexivity. rewrite inject_Z_injective. lia.
Qed.

Lemma quadratic_breakpoints_witness :
  ∃ p v,
    cost_curve (PyInt 3)
      {| gen_name := "g3"; PMIN := 10; PMAX := 50; MODEL := 2; NCOST := 3;
         COST := [5%Q; 2%Q; 1%Q]; STARTUP := 0; SHUTDOWN := 0 |}
    = Ok (Some (p, v))
    ∧ length p = 3%nat.
Proof.
  destruct (quadratic_breakpoints
              {| gen_name := "g3"; PMIN := 10; PMAX := 50; MODEL := 2; NCOST := 3;
                 COST := [5%Q; 2%Q; 1%Q]; STARTUP := 0; SHUTDOWN := 0 |} 3 5 2 1)
    as (p & v & Hc & Hl & _); [reflexivity|reflexivity|lia|reflexivity..|].
  by exists p, v.
Defined.

Lemma od_get_elem_of {A} (k : string) (a : A) (d : list (string * A)) :
  od_get k d = Some a → (k, a) ∈ d.
Proof.
  induction d as [|[k' a'] d IH]; cbn; [discriminate|].
  case_bool_decide as E.
  - intros [= ->]. subst k'. by apply elem_of_cons; left.
  - intros H. apply elem_of_cons; right. by apply IH.
Qed.

Lemma od_get_None {A} (k : string) (d : list (string * A)) :
  od_get k d = None ↔ k ∉ d.*1.
Proof.
  induction d as [|[k' a'] d IH]; cbn.
  - split; [intros _; apply not_elem_of_nil | done].
  - case_bool_decide as E.
    + subst k'. split; [discriminate|]. intros H. exfalso. apply H.
      by apply elem_of_cons; left.
    + rewrite IH, not_elem_of_cons. split; [by split | by intros [_ ?]].
Qed.

(** X22. With [segments] below 2, a build that has a quadratic-cost generator
    (with a label of its own) never gets through the curve stage. *)
Theorem quadratic_needs_two_segments (gens : list Generator) (g : Generator) (n : Z) :
  NoDup (gen_name <$> gens) → g ∈ gens →
  MODEL g = 2 → NCOST g = 3 → n < 2 →
  ∀ c, validated_curves (PyInt n) gens ≠ Ok c.
Proof.
  intros Hnd Hg HM HN Hn c Hc.
  apply validated_curves_Ok in Hc as (Hc & Hp & _).
  destruct (cost_curves_get _ _ _ _ g Hnd Hg Hc) as (cur & Hcur & Hget).
  unfold cost_curve, polynomial_curve in Hcur. rewrite HM, HN in Hcur.
  change (2 =? 2) with true in Hcur. change (3 =? 2) with false in Hcur.
  change (3 =? 3) with true in Hcur. cbv iota in Hcur.
  apply fmap_Ok in Hcur as ([p v] & Hcur & ->).
  apply bind_Ok in Hcur as (num & Hnum & Hcur).
  apply bind_Ok in Hcur as (c0 & _ & Hcur). apply bind_Ok in Hcur as (c1 & _ & Hcur).
  apply bind_Ok in Hcur as (c2 & _ & Hcur). injection Hcur as <- <-.
  cbn in Hnum. destruct (n <? 0) eqn:E; [discriminate|]. injection Hnum as <-.
  destruct (Hget _ _ eq_refl) as [Hpts _]. apply od_get_elem_of in Hpts.
  rewrite Forall_forall in Hp. specialize (Hp _ Hpts). cbn in Hp.
  rewrite linspace_length in Hp. lia.
Qed.

Lemma quadratic_needs_two_segments_witness :
  match validated_curves (PyInt 1)
          [unit_g1;
           {| gen_name := "g3"; PMIN := 10; PMAX := 50; MODEL := 2; NCOST := 3;
              COST := [5%Q; 2%Q; 1%Q]; STARTUP := 0; SHUTDOWN := 0 |}]
  with
  | Ok _ => False
  | Raise _ => True
  end.
Proof.
  destruct (validated_curves _ _) as [c|e] eqn:E; [|exact I].
  apply (quadratic_needs_two_segments
           [unit_g1;
            {| gen_name := "g3"; PMIN := 10; PMAX := 50; MODEL := 2; NCOST := 3;
               COST := [5%Q; 2%Q; 1%Q]; STARTUP := 0; SHUTDOWN := 0 |}]
           {| gen_name := "g3"; PMIN := 10; PMAX := 50; MODEL := 2; NCOST := 3;
              COST := [5%Q; 2%Q; 1%Q]; STARTUP := 0; SHUTDOWN := 0 |} 1) with (c := c);
    [by apply (bool_decide_unpack _) | | reflexivity | reflexivity | lia | exact E].
  apply list_elem_of_In. cbn. tauto.
Defined.

Lemma cost_curve_Some_model (segs : pyval) (g : Generator) (cur : Curve) :
  cost_curve segs g = Ok (Some cur) → MODEL g = 0 ∨ MODEL g = 1 ∨ MODEL g = 2.
Proof.
  unfold cost_curve.
  destruct (MODEL g =? 2) eqn:E2; [lia|]. destruct (MODEL g =? 1) eqn:E1; [lia|].
  destruct (MODEL g =? 0) eqn:E0; [lia|discriminate].
Qed.

Lemma cost_curves_keys (segs : pyval) (gens : list Generator) (acc c : Curves)
    (k : string) :
  cost_curves segs gens acc = Ok c → k ∈ (fst c).*1 →
  k ∈ (fst acc).*1
  ∨ ∃ g, g ∈ gens ∧ gen_name g = k ∧ (MODEL g = 0 ∨ MODEL g = 1 ∨ MODEL g = 2).
Proof.
  revert acc. induction gens as [|g gens IH]; intros acc H Hk.
  - injection H as <-. by left.
  - apply cost_curves_cons in H as (cur & Hcur & H).
    destruct (IH _ H Hk) as [Hacc|(g' & Hg' & Hn & Hm)].
    + destruct cur as [[p v]|]; [|by left].
      cbn in Hacc. apply od_set_keys in Hacc as [->|Hacc]; [|by left].
      right. exists g. split; [by apply elem_of_cons; left|]. split; [done|].
      by eapply cost_curve_Some_model.
    + right. exists g'. split; [by apply elem_of_cons; right|done].
Qed.

(** X23. In every successful build the points and the values handed to the
    piecewise cost construction have the same generator labels in the
    same order, with arrays of equal length label by label, and every
    label is that of a generator whose [MODEL] is 0, 1 or 2. *)
Theorem curves_aligned (a : BuildArgs) (asm : Assembly) :
  snd (build_assembly a) = Ok asm →
  aligned (fun p v => length p = length v) (points asm) (values asm)
  ∧ ∀ k, k ∈ (points asm).*1 →
         ∃ g, g ∈ generator_df a ∧ gen_name g = k
            ∧ (MODEL g = 0 ∨ MODEL g = 1 ∨ MODEL g = 2).
Proof.
  intros H. apply build_assembly_curves, validated_curves_Ok in H as (Hc & _ & _).
  split.
  - eapply (cost_curves_aligned _ _ ([], []) (points asm, values asm)); [|exact Hc].
    constructor.
  - intros k Hk. destruct (cost_curves_keys _ _ _ _ k Hc Hk) as [Hnil|Hg]; [|exact Hg].
    by apply elem_of_nil in Hnil.
Qed.

Lemma curves_aligned_witness :
  match snd (build_assembly (sample_args None)) with
  | Ok asm => aligned (fun p v => length p = length v) (points asm) (values asm)
  | Raise _ => False
  end.
Proof.
  destruct (snd (build_assembly (sample_args None))) as [asm|e] eqn:E.
  - apply (curves_aligned (sample_args None) asm E).
  - vm_compute in E. discriminate E.
Defined.

(** X24. A generator whose [MODEL] is not 0, 1 or 2 does not stop the build:
    it is passed over, and no cost curve is handed on under its label. *)
Theorem unknown_model_without_curve (a : BuildArgs) (asm : Assembly) (g : Generator) :
  snd (build_assembly a) = Ok asm →
  NoDup (gen_name <$> generator_df a) → g ∈ generator_df a →
  MODEL g ≠ 0 → MODEL g ≠ 1 → MODEL g ≠ 2 →
  od_get (gen_name g) (points asm) = None ∧ od_get (gen_name g) (values asm) = None.
Proof.
  intros H Hnd Hg H0 H1 H2.
  apply build_assembly_curves, validated_curves_Ok in H as (Hc & _ & _).
  assert (Hal : aligned (fun p v => length p = length v) (points asm) (values asm)).
  { eapply (cost_curves_aligned _ _ ([], []) (points asm, values asm)); [|exact Hc].
    constructor. }
  cbn [fst snd] in *.
  assert (Hkeys : gen_name g ∉ (points asm).*1).
  { intros Hk. destruct (cost_curves_keys _ _ _ _ _ Hc Hk) as [Hnil|(g' & Hg' & Hn & Hm)];
      [by apply elem_of_nil in Hnil|].
    assert (g' = g) as ->; [|lia].
    apply list_elem_of_lookup in Hg' as [i Hi]. apply list_elem_of_lookup in Hg as [j Hj].
    assert (i = j) as ->; [|congruence].
    apply (NoDup_lookup _ i j (gen_name g) Hnd); rewrite list_lookup_fmap.
    - by rewrite Hi, <- Hn.
    - by rewrite Hj. }
  split; [by apply od_get_None|]. apply od_get_None.
  assert ((points asm).*1 = (values asm).*1) as <-; [|exact Hkeys].
  clear -Hal. induction Hal as [|x y l1 l2 [Hxy _] _ IH]; [reflexivity|].
  cbn. by rewrite Hxy, IH.
Qed.

Lemma unknown_model_without_curve_witness :
  match snd (build_assembly
               {| case := {| baseMVA := 100 |};
                  generator_df :=
                    [unit_g1;
                     {| gen_name := "g7"; PMIN := 0; PMAX := 5; MODEL := 3; NCOST := 0;
                        COST := []; STARTUP := 0; SHUTDOWN := 0 |}];
                  load_index := [0; 1];
                  branch_df := [];
                  bus_index := ["b1"];
                  previous_unit_commitment_df := None;
                  base_MVA := Some 100%Q;
                  factors := {| reserve_factor := None;
                                regulating_reserve_factor := None;
                                flexible_ramp_factor := None |};
                  config := None |})
  with
  | Ok asm => od_get "g7" (points asm) = None
  | Raise _ => False
  end.
Proof.
  destruct (snd (build_assembly _)) as [asm|e] eqn:E.
  - eapply (unknown_model_without_curve _ asm
              {| gen_name := "g7"; PMIN := 0; PMAX := 5; MODEL := 3; NCOST := 0;
                 COST := []; STARTUP := 0; SHUTDOWN := 0 |} E);
      [by apply (bool_decide_unpack _) | | discriminate..].
    apply list_elem_of_In. cbn. tauto.
  - vm_compute in E. discriminate E.
Defined.

(** ** The value a variable is fixed at *)

Lemma int_of_float_floor (v : Q) (z : Z) :
  0 ≤ z → (inject_Z z <= v)%Q → (v < inject_Z z + 1)%Q → int_of_float v = z.
Proof.
  destruct v as [n d]. unfold int_of_float, Qle, Qlt. cbn. intros Hz Hle Hlt.
  rewrite Z.quot_div_nonneg by nia. symmetry.
  apply (Z.div_unique n (Z.pos d) z (n - z * Z.pos d)); nia.
Qed.

Lemma int_of_float_small (v : Q) : (-1 < v)%Q → (v < 1)%Q → int_of_float v = 0.
Proof.
  destruct v as [n d]. unfold int_of_float, Qlt. cbn. intros Hlo Hhi.
  destruct (Z.le_gt_cases 0 n) as [Hn|Hn].
  - apply Z.quot_small. lia.
  - rewrite <- (Z.opp_involutive n), Z.quot_opp_l by lia.
    rewrite Z.quot_small by lia. reflexivity.
Qed.

(** X26. A cell is fixed at its integer part: a cell strictly between -1 and
    1 fixes the variable at 0 (so does a 1 that the solver returned a
    shade low), and a cell from 1 up to 2 fixes it at 1. *)
Theorem fix_cell_truncates (t : Z) (m : Model) (g : string) (v : Q) (var : VarData) :
  UnitOn m !! (g, t) = Some var →
  ((-1 < v)%Q → (v < 1)%Q →
     fix_cell t m (g, Some v) = Ok (set_UnitOn (<[(g, t) := fixed_at 0]> (UnitOn m)) m))
  ∧ ((1 <= v)%Q → (v < 2)%Q →
     fix_cell t m (g, Some v) = Ok (set_UnitOn (<[(g, t) := fixed_at 1]> (UnitOn m)) m)).
Proof.
  intros Hvar. unfold fix_cell. cbn [fst snd]. rewrite Hvar. split.
  - intros Hlo Hhi. by rewrite (int_of_float_small v Hlo Hhi).
  - intros Hlo Hhi. by rewrite (int_of_float_floor v 1); [|lia|exact Hlo|exact Hhi].
Qed.

Lemma fix_cell_truncates_witness :
  fix_cell 0 (bare_model empty_assembly) ("g1", Some (999999 # 1000000)%Q)
  = Ok (set_UnitOn (<[("g1", 0) := fixed_at 0]> (UnitOn (bare_model empty_assembly)))
          (bare_model empty_assembly)).
Proof.
  eapply (fix_cell_truncates 0 (bare_model empty_assembly) "g1" (999999 # 1000000)%Q);
    [reflexivity|reflexivity|reflexivity].
Defined.

Lemma solve_call_protocol_witness :
  ∃ m2, fst (solve echo_solver exact_commitment sample_self "glpk" false false true ∅)
        = [(_model sample_self,
            {| solver := "glpk"; verbose := false; keepfiles := false;
               is_mip := None; kwargs := ∅ |});
           (m2, {| solver := "glpk"; verbose := false; keepfiles := false;
                   is_mip := Some false; kwargs := ∅ |})]
      ∧ up_down_time_inactive m2.
Proof.
  destruct (solve_call_protocol echo_solver exact_commitment sample_self
              "glpk" false false true ∅) as ([H|H] & _ & _).
  - vm_compute in H. discriminate H.
  - exact H.
Defined.
